(** * Microsoft Domain/IP Listing Tool: the cache and the item extractor

    A shallow embedding of [microsoft_domains.py].

    - JSON data is the inductive type [json]; a Python [str] is a [string]
      whose characters are its code points (code points below 256), so that
      the order of [String.compare] is Python's order on [str].
    - Python exceptions are the constructors of [exn]; a computation that may
      raise returns a [result].
    - The file system, the clock, the two output channels and the network are
      the fields of [world].  Code that only uses them is a function
      [world -> result A * world] ([W A]); code that may call a producer
      ([operation()] in [use_cache]) also counts these calls ([M A]).
    - What the program takes from outside the repository (the [json] module,
      the install directory, the UUID generator) is the class [Platform].

    [json.loads] returns a value or raises; [json_loads] is the value and
    [json_error] the exception, which need not be [JSONDecodeError].

    File-system calls fail in the model only where the program handles the
    failure or a missing file is read: permissions and non-regular files are
    not modelled, and timestamps are whole seconds.  A file holds text: the
    bytes on disk are not modelled, nor a file whose bytes do not decode.
    A request returns the decoded body or fails with [URLError].  The
    command lines are those that give both positional arguments and any of
    the options but [-h]; what argparse prints when it refuses them is not
    modelled. *)

From Stdlib Require Import ZArith String Ascii List Sorted Lia.
From stdpp Require Import base gmap strings list.

Local Set Warnings "-register-all".
Local Open Scope string_scope.
Local Open Scope Z_scope.

(** ** Values and exceptions *)

Inductive json : Type :=
  | JNull
  | JBool (b : bool)
  | JInt (n : Z)
  | JStr (s : string)
  | JArr (l : list json)
  | JObj (kvs : list (string * json)).

Inductive exn : Type :=
  | JSONDecodeError
  | RecursionError
  | ValueError
  | KeyError (k : string)
  | TypeError
  | AttributeError
  | OSError
  | URLError
  | SystemExit (code : Z).

Inductive result (A : Type) : Type :=
  | Ok (a : A)
  | Raise (e : exn).
Arguments Ok {A} a.
Arguments Raise {A} e.

Definition rbind {A B} (r : result A) (k : A -> result B) : result B :=
  match r with
  | Ok a => k a
  | Raise e => Raise e
  end.

Declare Scope py_scope.
Delimit Scope py_scope with py.
Notation "x <- r ;; k" := (rbind r (fun x => k))
  (at level 100, r at next level, right associativity) : py_scope.

(** ** The Python operations used on JSON data *)

Module Py.

(** [d[k]] and [k in d] on a dict kept as an association list. *)
Fixpoint assoc (k : string) (kvs : list (string * json)) : option json :=
  match kvs with
  | [] => None
  | (k', v) :: rest => if String.eqb k k' then Some v else assoc k rest
  end.

Definition has_key (k : string) (kvs : list (string * json)) : bool :=
  match assoc k kvs with Some _ => true | None => false end.

(** [a in b] for two [str]: [a] occurs in [b]. *)
Fixpoint substring_of (a b : string) : bool :=
  String.prefix a b
  || match b with
     | EmptyString => false
     | String _ b' => substring_of a b'
     end.

Definition chars (s : string) : list json :=
  map (fun c => JStr (String c EmptyString)) (list_ascii_of_string s).

(** [bool(v)] *)
Definition truthy (v : json) : bool :=
  match v with
  | JNull => false
  | JBool b => b
  | JInt n => negb (n =? 0)
  | JStr s => negb (String.eqb s "")
  | JArr l => match l with [] => false | _ => true end
  | JObj kvs => match kvs with [] => false | _ => true end
  end.

(** [iter(v)], as a [for] loop and [list.extend] use it. *)
Definition iter (v : json) : result (list json) :=
  match v with
  | JArr l => Ok l
  | JObj kvs => Ok (map (fun kv => JStr (fst kv)) kvs)
  | JStr s => Ok (chars s)
  | JNull | JBool _ | JInt _ => Raise TypeError
  end.

(** [k in v] for a [str] [k]. *)
Definition contains (k : string) (v : json) : result bool :=
  match v with
  | JObj kvs => Ok (has_key k kvs)
  | JArr l =>
      Ok (existsb (fun x => match x with
                            | JStr s => String.eqb k s
                            | _ => false
                            end) l)
  | JStr s => Ok (substring_of k s)
  | JNull | JBool _ | JInt _ => Raise TypeError
  end.

(** [v[k]] for a [str] [k]. *)
Definition getitem (v : json) (k : string) : result json :=
  match v with
  | JObj kvs =>
      match assoc k kvs with
      | Some x => Ok x
      | None => Raise (KeyError k)
      end
  | _ => Raise TypeError
  end.

(** The value of a number in comparisons: [True] is 1, [False] is 0. *)
Definition number (v : json) : option Z :=
  match v with
  | JInt n => Some n
  | JBool b => Some (if b then 1 else 0)
  | _ => None
  end.

(** [x < y].  Python also orders two lists; they raise here at once the
    [TypeError] that [OrderedDict.fromkeys] raises for them right after
    the sort, a list not being hashable. *)
Definition lt (x y : json) : result bool :=
  match x, y with
  | JStr a, JStr b => Ok (String.ltb a b)
  | _, _ =>
      match number x, number y with
      | Some a, Some b => Ok (a <? b)
      | _, _ => Raise TypeError
      end
  end.

(** [x == y] on hashable values. *)
Definition eq (x y : json) : bool :=
  match x, y with
  | JStr a, JStr b => String.eqb a b
  | JNull, JNull => true
  | _, _ =>
      match number x, number y with
      | Some a, Some b => a =? b
      | _, _ => false
      end
  end.

Definition hashable (v : json) : bool :=
  match v with
  | JArr _ | JObj _ => false
  | _ => true
  end.

(** [list.sort()]: a stable comparison sort that uses [<] only and lets the
    exception of a comparison escape. *)
Fixpoint insert (x : json) (l : list json) : result (list json) :=
  match l with
  | [] => Ok [x]
  | y :: l' =>
      (b <- lt y x ;;
       if b then (r <- insert x l' ;; Ok (y :: r)) else Ok (x :: y :: l'))%py
  end.

Fixpoint sort (l : list json) : result (list json) :=
  match l with
  | [] => Ok []
  | x :: l' => (s <- sort l' ;; insert x s)%py
  end.

(** [list(OrderedDict.fromkeys(l))]: the keys in the order of their first
    occurrence; [seen] holds the keys met so far. *)
Fixpoint fromkeys_from (seen l : list json) : result (list json) :=
  match l with
  | [] => Ok seen
  | x :: l' =>
      if hashable x
      then fromkeys_from (if existsb (eq x) seen then seen else (seen ++ [x])%list) l'
      else Raise TypeError
  end.

Definition fromkeys (l : list json) : result (list json) :=
  fromkeys_from [] l.

End Py.

(** ** Item extraction: the body of [get_items] after the data is fetched *)

(** One turn of the loop [for service in data]: the new value of [items]. *)
Definition get_items_step (item : string) (required : bool)
    (items : list json) (service : json) : result (list json) :=
  (present <- Py.contains item service ;;
   if present then
     (req <- Py.getitem service "required" ;;
      if negb (negb (Py.truthy req) && required) then
        (field <- Py.getitem service item ;;
         values <- Py.iter field ;;
         Ok (items ++ values)%list)
      else Ok items)
   else Ok items)%py.

Fixpoint get_items_loop (item : string) (required : bool)
    (items : list json) (services : list json) : result (list json) :=
  match services with
  | [] => Ok items
  | service :: rest =>
      (items' <- get_items_step item required items service ;;
       get_items_loop item required items' rest)%py
  end.

(** [items] when the loop ends. *)
Definition get_items_accumulator (data : json) (item : string)
    (required : bool) : result (list json) :=
  (services <- Py.iter data ;;
   get_items_loop item required [] services)%py.

(** [items.sort(); return list(OrderedDict.fromkeys(items))] *)
Definition sort_unique (items : list json) : result (list json) :=
  (sorted <- Py.sort items ;; Py.fromkeys sorted)%py.

Definition get_items_of (data : json) (item : string) (required : bool)
    : result (list json) :=
  (items <- get_items_accumulator data item required ;; sort_unique items)%py.

(** ** The world: clock, file system, output channels, network *)

Record file : Type := File { content : string; mtime : Z }.

Record world : Type := World {
  clock : Z;                          (* time.time(), in seconds *)
  dirs : gset string;                 (* the directories that exist *)
  files : gmap string file;           (* the regular files, by path *)
  stderr : list string;               (* one entry per call of eprint *)
  stdout : list json;                 (* one entry per call of print *)
  network : string -> option string;  (* the body served for a URL, if any *)
  uuids : nat                         (* how many UUIDs were drawn *)
}.

Definition set_files (fs : gmap string file) (w : world) : world :=
  World (clock w) (dirs w) fs (stderr w) (stdout w) (network w) (uuids w).
Definition set_dirs (ds : gset string) (w : world) : world :=
  World (clock w) ds (files w) (stderr w) (stdout w) (network w) (uuids w).
Definition set_stderr (l : list string) (w : world) : world :=
  World (clock w) (dirs w) (files w) l (stdout w) (network w) (uuids w).
Definition set_stdout (l : list json) (w : world) : world :=
  World (clock w) (dirs w) (files w) (stderr w) l (network w) (uuids w).
Definition set_uuids (n : nat) (w : world) : world :=
  World (clock w) (dirs w) (files w) (stderr w) (stdout w) (network w) n.

(** Code without producer calls. *)
Definition W (A : Type) : Type := world -> result A * world.

Definition wret {A} (a : A) : W A := fun w => (Ok a, w).
Definition wraise {A} (e : exn) : W A := fun w => (Raise e, w).
Definition wbind {A B} (c : W A) (k : A -> W B) : W B :=
  fun w => match c w with
           | (Ok a, w') => k a w'
           | (Raise e, w') => (Raise e, w')
           end.
Definition wpure {A} (r : result A) : W A := fun w => (r, w).

(** Code that may call a producer; the last component counts the calls. *)
Definition M (A : Type) : Type := world -> result A * world * nat.

Definition mret {A} (a : A) : M A := fun w => (Ok a, w, 0%nat).
Definition mbind {A B} (c : M A) (k : A -> M B) : M B :=
  fun w => match c w with
           | (Ok a, w', n) => let '(r, w'', m) := k a w' in (r, w'', (n + m)%nat)
           | (Raise e, w', n) => (Raise e, w', n)
           end.
Definition lift {A} (c : W A) : M A := fun w => (c w, 0%nat).
(** [operation()] *)
Definition invoke {A} (operation : W A) : M A := fun w => (operation w, 1%nat).

(** [try: body except json.decoder.JSONDecodeError: handler] *)
Definition except_JSONDecodeError {A} (body handler : M A) : M A :=
  fun w => match body w with
           | (Raise JSONDecodeError, w', n) =>
               let '(r, w'', m) := handler w' in (r, w'', (n + m)%nat)
           | other => other
           end.

(** [try: body except OSError: handler] *)
Definition except_OSError {A} (body handler : W A) : W A :=
  fun w => match body w with
           | (Raise OSError, w') => handler w'
           | other => other
           end.

Declare Scope w_scope.
Delimit Scope w_scope with w.
Notation "x <- c ;; k" := (wbind c (fun x => k))
  (at level 100, c at next level, right associativity) : w_scope.
Notation "c ;; k" := (wbind c (fun _ => k))
  (at level 100, right associativity) : w_scope.
Declare Scope m_scope.
Delimit Scope m_scope with m.
Notation "x <- c ;; k" := (mbind c (fun x => k))
  (at level 100, c at next level, right associativity) : m_scope.
Notation "c ;; k" := (mbind c (fun _ => k))
  (at level 100, right associativity) : m_scope.

(** ** Library calls *)

Module Os.

(** [os.path.join(a, b)] *)
Definition join (a b : string) : string :=
  if String.prefix "/" b then b
  else if String.eqb a "" then b
  else if String.eqb (String.substring (String.length a - 1) 1 a) "/"
       then a ++ b
       else a ++ "/" ++ b.

(** [os.path.basename(p)]: what follows the last slash. *)
Fixpoint basename (p : string) : string :=
  match p with
  | EmptyString => EmptyString
  | String c p' =>
      if existsb (Ascii.eqb "/"%char) (list_ascii_of_string p')
      then basename p'
      else if Ascii.eqb c "/"%char then p' else p
  end.

Definition exists_ (p : string) : W bool :=
  fun w => (Ok (bool_decide (p ∈ dirs w) || bool_decide (is_Some (files w !! p))), w).

Definition mkdir (p : string) : W unit :=
  fun w => if bool_decide (p ∈ dirs w) || bool_decide (is_Some (files w !! p))
           then (Raise OSError, w)
           else (Ok tt, set_dirs ({[p]} ∪ dirs w) w).

Definition getmtime (p : string) : W Z :=
  fun w => match files w !! p with
           | Some f => (Ok (mtime f), w)
           | None => (Raise OSError, w)
           end.

(** [time.time()] *)
Definition time : W Z := fun w => (Ok (clock w), w).

(** [with open(p, "r") as f: f.read()] *)
Definition read (p : string) : W string :=
  fun w => match files w !! p with
           | Some f => (Ok (content f), w)
           | None => (Raise OSError, w)
           end.

(** [open(p, "w")]: the file is created or emptied. *)
Definition open_w (p : string) : W unit :=
  fun w => (Ok tt, set_files (<[p := File "" (clock w)]> (files w)) w).

(** [open(p, "a")]: the file is created if it is missing. *)
Definition open_a (p : string) : W unit :=
  fun w => match files w !! p with
           | Some _ => (Ok tt, w)
           | None => (Ok tt, set_files (<[p := File "" (clock w)]> (files w)) w)
           end.

(** [f.write(s)] on a file opened at [p] for writing or appending. *)
Definition write (p s : string) : W unit :=
  fun w => match files w !! p with
           | Some f =>
               if String.eqb s "" then (Ok tt, w)
               else (Ok tt, set_files (<[p := File (content f ++ s) (clock w)]> (files w)) w)
           | None => (Raise OSError, w)
           end.

End Os.

(** [eprint(s)] *)
Definition eprint (s : string) : W unit :=
  fun w => (Ok tt, set_stderr (stderr w ++ [s]) w).

(** [print(v)] *)
Definition print (v : json) : W unit :=
  fun w => (Ok tt, set_stdout (stdout w ++ [v]) w).

(** What the program takes from outside the repository. *)
Class Platform : Type := {
  json_loads : string -> option json;  (* json.loads; None where it raises *)
  json_error : string -> exn;          (* what json.loads raises where it raises:
                                          JSONDecodeError, or RecursionError,
                                          ValueError, ... *)
  json_dumps : json -> string;         (* json.dumps *)
  CACHE_FOLDER : string;               (* <directory of the script>/msdomaincache *)
  uuid4 : nat -> string                (* str(uuid.uuid4()), by draw *)
}.

Definition BASE_PATH : string := "https://endpoints.office.com".
Definition CACHE_TIMEOUT : Z := 3600.

Module Urllib.

Definition hex_digit (n : nat) : ascii :=
  nth n (list_ascii_of_string "0123456789ABCDEF") "0"%char.

Definition percent (byte : nat) : string :=
  String "%" (String (hex_digit (byte / 16)) (String (hex_digit (byte mod 16)) "")).

Definition unreserved (n : nat) : bool :=
  ((48 <=? n) && (n <=? 57) || (65 <=? n) && (n <=? 90)
   || (97 <=? n) && (n <=? 122)
   || (n =? 95) || (n =? 46) || (n =? 45) || (n =? 126))%nat.

(** [urllib.parse.quote_plus(s)]: the UTF-8 bytes of [s], percent-encoded
    except for letters, digits and [_.-~]; a space becomes [+]. *)
Fixpoint quote_plus (s : string) : string :=
  match s with
  | EmptyString => EmptyString
  | String c s' =>
      let n := nat_of_ascii c in
      (if (n =? 32)%nat then "+"
       else if unreserved n then String c ""
       else if (n <? 128)%nat then percent n
       else percent (192 + n / 64) ++ percent (128 + n mod 64))
      ++ quote_plus s'
  end.

(** [urllib.parse.urlencode(d)] for a dict of strings. *)
Definition urlencode (d : list (string * string)) : string :=
  String.concat "&" (map (fun kv => quote_plus (fst kv) ++ "=" ++ quote_plus (snd kv)) d).

(** [urllib.request.urlopen(url).read().decode()] *)
Definition urlopen_read (url : string) : W string :=
  fun w => match network w url with
           | Some body => (Ok body, w)
           | None => (Raise URLError, w)
           end.

End Urllib.

(** [str.lower()], on code points below 256. *)
Definition lower_char (c : ascii) : ascii :=
  let n := nat_of_ascii c in
  if ((65 <=? n) && (n <=? 90) || (192 <=? n) && (n <=? 222) && negb (n =? 215))%nat
  then ascii_of_nat (n + 32)
  else c.

Fixpoint lower (s : string) : string :=
  match s with
  | EmptyString => EmptyString
  | String c s' => String (lower_char c) (lower s')
  end.

(** The line feed, Python's ["\n"]. *)
Definition newline : string := String "010" "".

(** ** The program *)

Section Program.

Context `{Platform}.

(** *** URL *)

Definition build_url (url : string) : W string :=
  fun w =>
    let uid := uuid4 (uuids w) in
    let frmt := "json" in
    let data := [("clientrequestid", uid); ("format", frmt)] in
    let url_values := Urllib.urlencode data in
    (Ok (url ++ "?" ++ url_values), set_uuids (S (uuids w)) w).

Definition make_request (url : string) : W string :=
  (eprint ("Making request to " ++ url) ;;
   Urllib.urlopen_read url)%w.

(** *** JSON *)

Definition parse_json (s : string) : W json :=
  match json_loads s with
  | Some v => wret v
  | None => wraise (json_error s)
  end.

Definition get_json_from_url (url : string) : W json :=
  (full_url <- build_url url ;;
   result <- make_request full_url ;;
   parse_json result)%w.

(** *** Caching *)

Definition cache_avail (cache_file : string) : W bool :=
  except_OSError
    (now <- Os.time ;;
     modified <- Os.getmtime cache_file ;;
     wret (now - modified <? CACHE_TIMEOUT))%w
    (wret false).

Definition load_cache (cache_file : string) : W json :=
  (data <- Os.read cache_file ;;
   parse_json data)%w.

Definition write_cache (cache_file : string) (data : json) : W unit :=
  (present <- Os.exists_ CACHE_FOLDER ;;
   (if negb present then Os.mkdir CACHE_FOLDER else wret tt) ;;
   Os.open_w cache_file ;;
   Os.write cache_file (json_dumps data))%w.

Definition build_cache (cache_file : string) (operation : W json) : M json :=
  (data <- invoke operation ;;
   lift (write_cache cache_file data) ;;
   mret data)%m.

Definition use_cache (cache_file_name : string) (operation : W json)
    (ignorecache : bool) : M json :=
  let cache_file := Os.join CACHE_FOLDER cache_file_name in
  (avail <- lift (cache_avail cache_file) ;;
   if avail && negb ignorecache then
     except_JSONDecodeError
       (data <- lift (load_cache cache_file) ;;
        lift (eprint ("Using cache " ++ Os.basename cache_file)) ;;
        mret data)
       (lift (eprint "Cache corrupted") ;;
        build_cache cache_file operation)
   else
     (lift (eprint "Ignoring cache") ;;
      build_cache cache_file operation))%m.

(** *** Data *)

Definition get_regions_data_operation : W json :=
  get_json_from_url (BASE_PATH ++ "/version").

Definition get_regions_data : M json :=
  use_cache "regions.cache" get_regions_data_operation false.

Fixpoint instances (regions_data : list json) : result (list json) :=
  match regions_data with
  | [] => Ok []
  | region :: rest =>
      (name <- Py.getitem region "instance" ;;
       names <- instances rest ;;
       Ok (name :: names))%py
  end.

(** [[region["instance"] for region in regions_data]] *)
Definition region_names (regions_data : json) : result (list json) :=
  (l <- Py.iter regions_data ;; instances l)%py.

Definition get_regions_list : M (list json) :=
  (regions_data <- get_regions_data ;;
   lift (wpure (region_names regions_data)))%m.

Definition get_endpoint_data_operation (region : string) : W json :=
  get_json_from_url (BASE_PATH ++ "/endpoints/" ++ region).

Definition get_endpoint_data (region : string) (ignorecache : bool) : M json :=
  use_cache (region ++ ".cache") (get_endpoint_data_operation region) ignorecache.

Definition get_items (region item : string) (required ignorecache : bool)
    : M (list json) :=
  (data <- get_endpoint_data region ignorecache ;;
   lift (wpure (get_items_of data item required)))%m.

(** *** Output *)

(** The loop [for i, line in enumerate(data)] from index [i] on. *)
Fixpoint write_lines (filename : string) (leng i : Z) (data : list json) : W unit :=
  match data with
  | [] => wret tt
  | line :: rest =>
      ((match line with
        | JStr s => Os.write filename s
        | _ => wraise TypeError
        end) ;;
       (if i <? leng - 1 then Os.write filename newline else wret tt) ;;
       write_lines filename leng (i + 1) rest)%w
  end.

Definition write_to_file (filename : string) (data : list json) (append : bool)
    : W unit :=
  ((if append then Os.open_a filename else Os.open_w filename) ;;
   write_lines filename (Z.of_nat (length data)) 0 data ;;
   eprint ("Wrote to " ++ filename))%w.

End Program.

(** *** Main function *)

(** The command line: the two positional arguments as typed, and the options. *)
Record command_line : Type := CommandLine {
  arg_region : string;
  arg_item : string;
  arg_required : bool;
  arg_ignorecache : bool;
  arg_outfile : option string;
  arg_append : bool
}.

(** [[region.lower() for region in regions]] *)
Fixpoint lower_all (regions : list json) : result (list string) :=
  match regions with
  | [] => Ok []
  | JStr s :: rest => (names <- lower_all rest ;; Ok (lower s :: names))%py
  | _ :: _ => Raise AttributeError
  end.

(** [parser.parse_args()]: both positional arguments are lowercased
    ([type=str.lower]) and must be among their choices; otherwise argparse
    exits with status 2 (its usage message is not modelled). *)
Definition parse_args (regions : list string) (cl : command_line)
    : result command_line :=
  let region := lower (arg_region cl) in
  let item := lower (arg_item cl) in
  if existsb (String.eqb region) regions && existsb (String.eqb item) ["urls"; "ips"]
  then Ok (CommandLine region item (arg_required cl) (arg_ignorecache cl)
             (arg_outfile cl) (arg_append cl))
  else Raise (SystemExit 2).

Fixpoint print_all (data : list json) : W unit :=
  match data with
  | [] => wret tt
  | line :: rest => (print line ;; print_all rest)%w
  end.

Section Main.

Context `{Platform}.

(** [main] once [regions = get_regions_list()] has returned. *)
Definition main_with_regions (cl : command_line) (regions : list json) : M unit :=
  (regions <- lift (wpure (lower_all regions)) ;;
   args <- lift (wpure (parse_args regions cl)) ;;
   data <- get_items (arg_region args) (arg_item args)
             (arg_required args) (arg_ignorecache args) ;;
   match arg_outfile args with
   | Some filename =>
       if String.eqb filename "" then lift (print_all data)
       else lift (write_to_file filename data (arg_append args))
   | None => lift (print_all data)
   end)%m.

Definition main (cl : command_line) : M unit :=
  (regions <- get_regions_list ;; main_with_regions cl regions)%m.

End Main.

(** ** The [json] module on integers, strings, arrays and objects

    [Json.dumps] follows [json.dumps] with its default arguments.
    [Json.parse] follows [json.loads] as the C scanner of CPython runs it, on
    the documents whose numbers are integers and whose [\u] escapes are below
    U+0100: a text that is no such document ends in [JSONDecodeError], an
    array or object nested deeper than [recursion_limit] in [RecursionError],
    an integer of more than [max_str_digits] digits in [ValueError].  For the
    remaining documents (a fraction, an exponent, [NaN], a larger escape)
    [JSONDecodeError] is not what Python does. *)

Module Json.

Definition digit (n : Z) : ascii := ascii_of_nat (48 + Z.to_nat n).

Fixpoint digits (fuel : nat) (n : Z) (acc : string) : string :=
  match fuel with
  | O => acc
  | S fuel' =>
      if n <? 10 then String (digit n) acc
      else digits fuel' (n / 10) (String (digit (n mod 10)) acc)
  end.

(** [str(n)] for an [int]. *)
Definition decimal (n : Z) : string :=
  if n <? 0 then String "-" (digits (Z.to_nat (Z.log2 (- n)) + 1) (- n) "")
  else digits (Z.to_nat (Z.log2 n) + 1) n "".

Definition hex_digit (n : nat) : ascii :=
  nth n (list_ascii_of_string "0123456789abcdef") "0"%char.

Definition escape_char (c : ascii) : string :=
  let n := nat_of_ascii c in
  if (n =? 34)%nat then String "\" (String c "")
  else if (n =? 92)%nat then "\\"
  else if (n =? 10)%nat then "\n"
  else if (n =? 13)%nat then "\r"
  else if (n =? 9)%nat then "\t"
  else if (n =? 8)%nat then "\b"
  else if (n =? 12)%nat then "\f"
  else if ((32 <=? n) && (n <=? 126))%nat then String c ""
  else "\u00" ++ String (hex_digit (n / 16)) (String (hex_digit (n mod 16)) "").

Fixpoint escape (s : string) : string :=
  match s with
  | EmptyString => EmptyString
  | String c s' => escape_char c ++ escape s'
  end.

Definition quoted (s : string) : string :=
  String "034" (escape s ++ String "034" "").

Fixpoint dumps (v : json) : string :=
  match v with
  | JNull => "null"
  | JBool true => "true"
  | JBool false => "false"
  | JInt n => decimal n
  | JStr s => quoted s
  | JArr l =>
      "[" ++ (fix items (l : list json) : string :=
                match l with
                | [] => ""
                | x :: rest =>
                    dumps x ++ match rest with [] => "" | _ => ", " ++ items rest end
                end) l ++ "]"
  | JObj kvs =>
      "{" ++ (fix members (kvs : list (string * json)) : string :=
                match kvs with
                | [] => ""
                | (k, x) :: rest =>
                    quoted k ++ ": " ++ dumps x
                    ++ match rest with [] => "" | _ => ", " ++ members rest end
                end) kvs ++ "}"
  end.

(** JSON white space: space, tab, line feed, carriage return. *)
Definition is_ws (c : ascii) : bool :=
  let n := nat_of_ascii c in
  ((n =? 32) || (n =? 9) || (n =? 10) || (n =? 13))%nat.

Fixpoint skip_ws (s : list ascii) : list ascii :=
  match s with
  | c :: s' => if is_ws c then skip_ws s' else s
  | [] => []
  end.

Definition digit_value (c : ascii) : option Z :=
  let n := nat_of_ascii c in
  if ((48 <=? n) && (n <=? 57))%nat then Some (Z.of_nat (n - 48)) else None.

Definition hex_value (c : ascii) : option nat :=
  let n := nat_of_ascii c in
  if ((48 <=? n) && (n <=? 57))%nat then Some (n - 48)%nat
  else if ((97 <=? n) && (n <=? 102))%nat then Some (n - 87)%nat
  else if ((65 <=? n) && (n <=? 70))%nat then Some (n - 55)%nat
  else None.

(** [sys.get_int_max_str_digits()]: an integer of more digits is refused
    with [ValueError]. *)
Definition max_str_digits : nat := 4300.

(** How deep arrays and objects may nest before the scanner raises
    [RecursionError]. *)
Definition recursion_limit : nat := 1000.

(** The digits that follow, read in base ten from [acc]; [count] digits were
    read before. *)
Fixpoint number_tail (acc : Z) (count : nat) (s : list ascii)
    : Z * nat * list ascii :=
  match s with
  | c :: s' =>
      match digit_value c with
      | Some d => number_tail (10 * acc + d) (S count) s'
      | None => (acc, count, s)
      end
  | [] => (acc, count, [])
  end.

(** An integer without sign: [0], or a digit from 1 to 9 and more digits. *)
Definition natural (s : list ascii) : result (Z * list ascii) :=
  match s with
  | c :: s' =>
      match digit_value c with
      | Some 0 => Ok (0, s')
      | Some d =>
          let '(z, count, r) := number_tail d 1 s' in
          if (max_str_digits <? count)%nat then Raise ValueError else Ok (z, r)
      | None => Raise JSONDecodeError
      end
  | [] => Raise JSONDecodeError
  end.

(** The rest of a string after its opening quote. *)
Fixpoint string_tail (s : list ascii) : option (string * list ascii) :=
  match s with
  | [] => None
  | c :: s' =>
      let n := nat_of_ascii c in
      if (n =? 34)%nat then Some ("", s')
      else if (n <? 32)%nat then None
      else if (n =? 92)%nat then
        match s' with
        | e :: s'' =>
            let simple (x : nat) :=
              match string_tail s'' with
              | Some (t, r) => Some (String (ascii_of_nat x) t, r)
              | None => None
              end in
            let m := nat_of_ascii e in
            if (m =? 34)%nat then simple 34%nat
            else if (m =? 92)%nat then simple 92%nat
            else if (m =? 47)%nat then simple 47%nat
            else if (m =? 98)%nat then simple 8%nat
            else if (m =? 102)%nat then simple 12%nat
            else if (m =? 110)%nat then simple 10%nat
            else if (m =? 114)%nat then simple 13%nat
            else if (m =? 116)%nat then simple 9%nat
            else if (m =? 117)%nat then
              match s'' with
              | h1 :: h2 :: h3 :: h4 :: s3 =>
                  match hex_value h1, hex_value h2, hex_value h3, hex_value h4 with
                  | Some 0%nat, Some 0%nat, Some a, Some b =>
                      match string_tail s3 with
                      | Some (t, r) => Some (String (ascii_of_nat (16 * a + b)) t, r)
                      | None => None
                      end
                  | _, _, _, _ => None
                  end
              | _ => None
              end
            else None
        | [] => None
        end
      else
        match string_tail s' with
        | Some (t, r) => Some (String c t, r)
        | None => None
        end
  end.

(** [dict(pairs)]: a later pair of the same key replaces the value and keeps
    the place of the key. *)
Fixpoint put (k : string) (v : json) (kvs : list (string * json))
    : list (string * json) :=
  match kvs with
  | [] => [(k, v)]
  | (k', v') :: rest =>
      if String.eqb k k' then (k', v) :: rest else (k', v') :: put k v rest
  end.

Definition literal (word : string) (v : json) (s : list ascii)
    : result (json * list ascii) :=
  let w := list_ascii_of_string word in
  if bool_decide (firstn (length w) s = w)
  then Ok (v, skipn (length w) s)
  else Raise JSONDecodeError.

(** One JSON value at the head of [s], with what follows it.  [elements]
    reads an array from its first value on, [members] an object from its
    first key on.  [depth] is how many arrays and objects may still be
    entered; [fuel] bounds the depth of the calls. *)
Fixpoint value (fuel depth : nat) (s : list ascii) : result (json * list ascii) :=
  match fuel with
  | O => Raise JSONDecodeError
  | S fuel' =>
      match s with
      | [] => Raise JSONDecodeError
      | c :: s' =>
          let n := nat_of_ascii c in
          if (n =? 34)%nat then
            match string_tail s' with
            | Some (t, r) => Ok (JStr t, r)
            | None => Raise JSONDecodeError
            end
          else if (n =? 91)%nat then
            match depth with
            | O => Raise RecursionError
            | S depth' =>
                match skip_ws s' with
                | c' :: r => if (nat_of_ascii c' =? 93)%nat then Ok (JArr [], r)
                             else elements fuel' depth' (c' :: r) []
                | [] => Raise JSONDecodeError
                end
            end
          else if (n =? 123)%nat then
            match depth with
            | O => Raise RecursionError
            | S depth' =>
                match skip_ws s' with
                | c' :: r => if (nat_of_ascii c' =? 125)%nat then Ok (JObj [], r)
                             else members fuel' depth' (c' :: r) []
                | [] => Raise JSONDecodeError
                end
            end
          else if (n =? 110)%nat then literal "null" JNull s
          else if (n =? 116)%nat then literal "true" (JBool true) s
          else if (n =? 102)%nat then literal "false" (JBool false) s
          else if (n =? 45)%nat then
            match natural s' with
            | Ok (z, r) => Ok (JInt (- z), r)
            | Raise e => Raise e
            end
          else
            match natural s with
            | Ok (z, r) => Ok (JInt z, r)
            | Raise e => Raise e
            end
      end
  end
with elements (fuel depth : nat) (s : list ascii) (acc : list json)
    : result (json * list ascii) :=
  match fuel with
  | O => Raise JSONDecodeError
  | S fuel' =>
      match value fuel' depth s with
      | Ok (v, r) =>
          match skip_ws r with
          | c :: r' =>
              if (nat_of_ascii c =? 93)%nat then Ok (JArr (acc ++ [v]), r')
              else if (nat_of_ascii c =? 44)%nat
                   then elements fuel' depth (skip_ws r') (acc ++ [v])
                   else Raise JSONDecodeError
          | [] => Raise JSONDecodeError
          end
      | Raise e => Raise e
      end
  end
with members (fuel depth : nat) (s : list ascii) (acc : list (string * json))
    : result (json * list ascii) :=
  match fuel with
  | O => Raise JSONDecodeError
  | S fuel' =>
      match s with
      | q :: s' =>
          if (nat_of_ascii q =? 34)%nat then
            match string_tail s' with
            | Some (k, r) =>
                match skip_ws r with
                | c :: r' =>
                    if (nat_of_ascii c =? 58)%nat then
                      match value fuel' depth (skip_ws r') with
                      | Ok (v, r2) =>
                          match skip_ws r2 with
                          | d :: r3 =>
                              if (nat_of_ascii d =? 125)%nat
                              then Ok (JObj (put k v acc), r3)
                              else if (nat_of_ascii d =? 44)%nat
                                   then members fuel' depth (skip_ws r3) (put k v acc)
                                   else Raise JSONDecodeError
                          | [] => Raise JSONDecodeError
                          end
                      | Raise e => Raise e
                      end
                    else Raise JSONDecodeError
                | [] => Raise JSONDecodeError
                end
            | None => Raise JSONDecodeError
            end
          else Raise JSONDecodeError
      | [] => Raise JSONDecodeError
      end
  end.

(** [json.loads(s)] with its three ends: one value, white space allowed
    around it; [JSONDecodeError] for a text that is no document;
    [RecursionError] and [ValueError] where the scanner gives up before it
    knows. *)
Definition parse (s : string) : result json :=
  let input := list_ascii_of_string s in
  match value (2 * length input + 2) recursion_limit (skip_ws input) with
  | Ok (v, r) => match skip_ws r with [] => Ok v | _ => Raise JSONDecodeError end
  | Raise e => Raise e
  end.

(** What [json.loads(s)] returns, if it returns. *)
Definition loads (s : string) : option json :=
  match parse s with
  | Ok v => Some v
  | Raise _ => None
  end.

(** What [json.loads(s)] raises, if it raises. *)
Definition error (s : string) : exn :=
  match parse s with
  | Ok _ => JSONDecodeError
  | Raise e => e
  end.

End Json.

(** ** Reading a run *)

Definition returned {A} (run : result A * world * nat) : result A := fst (fst run).
Definition final {A} (run : result A * world * nat) : world := snd (fst run).
Definition producer_calls {A} (run : result A * world * nat) : nat := snd run.

(** The world after [eprint(s)]. *)
Definition logged (s : string) (w : world) : world :=
  set_stderr (stderr w ++ [s]) w.

(** ** Words for the statements *)

Section Vocabulary.

Context `{Platform}.

Definition cache_path (cache_file_name : string) : string :=
  Os.join CACHE_FOLDER cache_file_name.

Definition folder_exists (w : world) : bool :=
  bool_decide (CACHE_FOLDER ∈ dirs w) || bool_decide (is_Some (files w !! CACHE_FOLDER)).

(** The world after the cache folder is created if it is absent. *)
Definition with_folder (w : world) : world :=
  if folder_exists w then w else set_dirs ({[CACHE_FOLDER]} ∪ dirs w) w.

(** The world after [data] is stored in [cache_file]. *)
Definition stored (cache_file : string) (data : json) (w : world) : world :=
  set_files (<[cache_file := File (json_dumps data) (clock w)]> (files w))
    (with_folder w).

(** The cache file is present and younger than [CACHE_TIMEOUT]. *)
Definition fresh (cache_file : string) (w : world) (f : file) : Prop :=
  files w !! cache_file = Some f /\ clock w - mtime f < 3600.

(** The cache file is missing, or [CACHE_TIMEOUT] seconds old or older. *)
Definition missing_or_stale (cache_file : string) (w : world) : Prop :=
  files w !! cache_file = None
  \/ exists f, files w !! cache_file = Some f /\ 3600 <= clock w - mtime f.

(** The URL of the next request for [url]. *)
Definition next_request (url : string) (w : world) : string :=
  url ++ "?" ++ Urllib.urlencode [("clientrequestid", uuid4 (uuids w)); ("format", "json")].

(** The arguments as [main] sees them once the region list is known. *)
Definition arguments (regions_data : json) (cl : command_line)
    : result command_line :=
  (regions <- region_names regions_data ;;
   names <- lower_all regions ;;
   parse_args names cl)%py.

End Vocabulary.

(** The descriptor is an object that holds the field [item]. *)
Definition has_field (item : string) (service : json) : bool :=
  match service with
  | JObj kvs => Py.has_key item kvs
  | _ => false
  end.

(** The truth value of the descriptor's ["required"] entry. *)
Definition required_flag (service : json) : bool :=
  match service with
  | JObj kvs =>
      match Py.assoc "required" kvs with
      | Some r => Py.truthy r
      | None => false
      end
  | _ => false
  end.

(** The descriptor holds the field, and it is not the case that only required
    items are wanted and the descriptor is not required. *)
Definition included (item : string) (required : bool) (service : json) : bool :=
  has_field item service && negb (required && negb (required_flag service)).

Definition field_values (item : string) (service : json) : list json :=
  match service with
  | JObj kvs =>
      match Py.assoc item kvs with
      | Some (JArr l) => l
      | _ => []
      end
  | _ => []
  end.

(** An endpoint descriptor as far as [item] goes: an object which, when it
    holds [item], holds ["required"] too and has a list under [item] whose
    elements all pass [elem]. *)
Definition is_descriptor (elem : json -> bool) (item : string) (service : json)
    : bool :=
  match service with
  | JObj kvs =>
      if Py.has_key item kvs then
        Py.has_key "required" kvs
        && match Py.assoc item kvs with
           | Some (JArr l) => forallb elem l
           | _ => false
           end
      else true
  | _ => false
  end.

Definition any_value (v : json) : bool := true.
Definition is_str (v : json) : bool :=
  match v with JStr _ => true | _ => false end.

(** The strings of a list of JSON values. *)
Definition strings_of (l : list json) : list string :=
  List.flat_map (fun v => match v with JStr s => [s] | _ => [] end) l.

(** The world after [text] is written to the open file [filename]. *)
Definition write_world (filename text : string) (w : world) : world :=
  snd (Os.write filename text w).

(** The file after ["a", "b", "c"] is written to it and ["d"] is appended. *)
Definition written_then_appended (filename : string) (w : world) : option string :=
  content <$>
    files (snd (write_to_file filename [JStr "d"] true
                  (snd (write_to_file filename [JStr "a"; JStr "b"; JStr "c"] false w))))
      !! filename.

(** The order of [str]. *)

Module StrOrder.

Definition lt (a b : string) : Prop := String.ltb a b = true.
Definition le (a b : string) : Prop := String.ltb b a = false.

End StrOrder.

(** Sorting and deduplicating a list of [str], as [sort_unique] does. *)

Module StrList.

Fixpoint insert (x : string) (l : list string) : list string :=
  match l with
  | [] => [x]
  | y :: l' => if String.ltb y x then y :: insert x l' else x :: y :: l'
  end.

Fixpoint sort (l : list string) : list string :=
  match l with
  | [] => []
  | x :: l' => insert x (sort l')
  end.

Fixpoint unique_from (seen l : list string) : list string :=
  match l with
  | [] => seen
  | x :: l' =>
      unique_from (if existsb (String.eqb x) seen then seen else (seen ++ [x])%list) l'
  end.

Definition unique (l : list string) : list string := unique_from [] l.

Definition ascending (l : list string) : Prop := StronglySorted StrOrder.le l.
Definition strictly_ascending (l : list string) : Prop := StronglySorted StrOrder.lt l.

End StrList.

(** ** A platform and worlds to run the program on *)

Module Example.

(** Twelve decimal digits of the draw number close the UUID. *)
Definition uuid_of_draw (n : nat) : string :=
  let d := Json.decimal (Z.of_nat n) in
  "6f1c2d3e-4a5b-4c6d-8e7f-"
  ++ String.substring 0 (12 - String.length d) "000000000000" ++ d.

Definition python : Platform := {|
  json_loads := Json.loads;
  json_error := Json.error;
  json_dumps := Json.dumps;
  CACHE_FOLDER := "/opt/mdiplt/msdomaincache";
  uuid4 := uuid_of_draw
|}.

Definition regions_payload : json :=
  JArr [JObj [("instance", JStr "Worldwide"); ("latest", JStr "2024010100")];
        JObj [("instance", JStr "USGovDoD"); ("latest", JStr "2024010100")]].

Definition descriptors : json :=
  JArr [JObj [("id", JInt 1); ("required", JBool true); ("urls", JArr [JStr "b.com"])];
        JObj [("id", JInt 2); ("required", JBool false); ("urls", JArr [JStr "a.com"])]].

(** The server: the region list, and the same descriptors for every region. *)
Definition server (url : string) : option string :=
  if String.prefix (BASE_PATH ++ "/version?") url
  then Some (Json.dumps regions_payload)
  else if String.prefix (BASE_PATH ++ "/endpoints/") url
       then Some (Json.dumps descriptors)
       else None.

Definition regions_cache : string := "/opt/mdiplt/msdomaincache/regions.cache".
Definition worldwide_cache : string := "/opt/mdiplt/msdomaincache/worldwide.cache".

(** A first run: no cache folder yet. *)
Definition first_run : world :=
  World 1700000000 ∅ ∅ [] [] server 0.

(** Both caches written ten minutes ago. *)
Definition warm : world :=
  World 1700000600 {[ "/opt/mdiplt/msdomaincache" ]}
    (<[regions_cache := File (Json.dumps regions_payload) 1700000000]>
       (<[worldwide_cache := File (Json.dumps descriptors) 1700000000]> ∅))
    [] [] server 0.

(** The region cache is two hours old. *)
Definition expired : world :=
  World 1700007200 {[ "/opt/mdiplt/msdomaincache" ]}
    (<[regions_cache := File (Json.dumps regions_payload) 1700000000]> ∅)
    [] [] server 0.

(** The region cache was cut short while it was written. *)
Definition damaged : world :=
  World 1700000600 {[ "/opt/mdiplt/msdomaincache" ]}
    (<[regions_cache := File "[{" 1700000000]> ∅)
    [] [] server 0.

(** A server that answers without white space. *)
Definition quote : string := String "034" "".
Definition terse_regions : string :=
  "[{" ++ quote ++ "instance" ++ quote ++ ":" ++ quote ++ "Worldwide" ++ quote ++ "}]".
Definition terse : world :=
  World 1700000000 ∅ ∅ [] [] (fun _ => Some terse_regions) 0.

(** A producer that needs no network. *)
Definition constant (data : json) : W json := wret data.

End Example.

(** ** Words for the further properties *)

(** Every character of [s] is a letter, a digit or one of [_.-~], as in the
    text of a UUID. *)
Definition unreserved_string (s : string) : bool :=
  forallb (fun c => Urllib.unreserved (nat_of_ascii c)) (list_ascii_of_string s).

(** [s] holds no slash. *)
Definition slash_free (s : string) : bool :=
  negb (existsb (Ascii.eqb "/"%char) (list_ascii_of_string s)).

(** [v] is an [int] or a [bool]. *)
Definition is_number (v : json) : bool :=
  match Py.number v with Some _ => true | None => false end.

(** Two worlds that differ in the file at [filename] at most, and in what
    was printed on the error channel. *)
Definition same_but_file (filename : string) (w w' : world) : Prop :=
  (forall p, p <> filename -> files w' !! p = files w !! p)
  /\ dirs w' = dirs w /\ stdout w' = stdout w /\ clock w' = clock w
  /\ uuids w' = uuids w /\ network w' = network w.

(** The command line with both positional arguments in lower case. *)
Definition lowered (cl : command_line) : command_line :=
  CommandLine (lower (arg_region cl)) (lower (arg_item cl)) (arg_required cl)
    (arg_ignorecache cl) (arg_outfile cl) (arg_append cl).

(** The command line with another --outfile. *)
Definition with_outfile (outfile : option string) (cl : command_line) : command_line :=
  CommandLine (arg_region cl) (arg_item cl) (arg_required cl) (arg_ignorecache cl)
    outfile (arg_append cl).

(** The world [dt] seconds later, nothing else having happened. *)
Definition later (dt : Z) (w : world) : world :=
  World (clock w + dt) (dirs w) (files w) (stderr w) (stdout w) (network w) (uuids w).

Module MoreExamples.
Import Example.


(** The region cache is damaged and the server answers with a web page. *)
Definition garbled : world :=
  World 1700000600 {[ "/opt/mdiplt/msdomaincache" ]}
    (<[regions_cache := File "[{" 1700000000]> ∅)
    [] [] (fun _ => Some "<html>Service Unavailable</html>") 0.

(** [n] open brackets. *)
Definition brackets (n : nat) : string :=
  string_of_list_ascii (repeat "["%char n).

(** The region cache holds three thousand open brackets, against the same
    server. *)
Definition nested : world :=
  World 1700000600 {[ "/opt/mdiplt/msdomaincache" ]}
    (<[regions_cache := File (brackets 3000) 1700000000]> ∅)
    [] [] (fun _ => Some "<html>Service Unavailable</html>") 0.

End MoreExamples.

(** * Proofs *)

Section CacheFacts.

Context `{Platform}.

Lemma cache_avail_fresh cache_file w f :
  fresh cache_file w f -> cache_avail cache_file w = (Ok true, w).
Proof.
  intros [Hf Hage].
  unfold cache_avail, except_OSError, wbind, Os.time, Os.getmtime, wret.
  rewrite Hf. unfold CACHE_TIMEOUT.
  destruct (Z.ltb_spec (clock w - mtime f) 3600) as [_|Hge]; [reflexivity | lia].
Qed.

Lemma cache_avail_missing_or_stale cache_file w :
  missing_or_stale cache_file w -> cache_avail cache_file w = (Ok false, w).
Proof.
  unfold cache_avail, except_OSError, wbind, Os.time, Os.getmtime, wret.
  intros [Hnone | (f & Hf & Hage)].
  - rewrite Hnone. reflexivity.
  - rewrite Hf. unfold CACHE_TIMEOUT.
    destruct (Z.ltb_spec (clock w - mtime f) 3600) as [Hlt|_]; [lia | reflexivity].
Qed.

Lemma cache_avail_pure cache_file w :
  exists b, cache_avail cache_file w = (Ok b, w).
Proof.
  unfold cache_avail, except_OSError, wbind, Os.time, Os.getmtime, wret.
  destruct (files w !! cache_file); eauto.
Qed.

Lemma write_cache_run cache_file data w :
  write_cache cache_file data w = (Ok tt, stored cache_file data w).
Proof.
  unfold write_cache, stored, with_folder, folder_exists, wbind, Os.exists_,
    Os.mkdir, Os.open_w, Os.write, wret.
  destruct (bool_decide (CACHE_FOLDER ∈ dirs w)
            || bool_decide (is_Some (files w !! CACHE_FOLDER))) eqn:Hex; simpl.
  - rewrite lookup_insert_eq. simpl.
    destruct (String.eqb (json_dumps data) "") eqn:Hempty.
    + apply String.eqb_eq in Hempty. rewrite Hempty. reflexivity.
    + unfold set_files. simpl. rewrite insert_insert_eq. reflexivity.
  - rewrite Hex. simpl. rewrite lookup_insert_eq. simpl.
    destruct (String.eqb (json_dumps data) "") eqn:Hempty.
    + apply String.eqb_eq in Hempty. rewrite Hempty. reflexivity.
    + unfold set_files. simpl. rewrite insert_insert_eq. reflexivity.
Qed.

Lemma stored_folder_exists cache_file data w :
  folder_exists (stored cache_file data w) = true.
Proof.
  unfold stored, with_folder.
  destruct (folder_exists w) eqn:Hex; unfold folder_exists in *; simpl.
  - apply orb_true_iff in Hex as [Hd | Hfile]; [rewrite Hd; reflexivity|].
    apply orb_true_iff. right.
    apply bool_decide_eq_true. apply bool_decide_eq_true in Hfile.
    destruct (decide (cache_file = CACHE_FOLDER)) as [->|Hne].
    + rewrite lookup_insert_eq. eauto.
    + rewrite lookup_insert_ne; assumption.
  - apply orb_true_iff. left. apply bool_decide_eq_true.
    apply elem_of_union_l, elem_of_singleton. reflexivity.
Qed.

Lemma stored_dirs cache_file data w :
  dirs (stored cache_file data w)
  = if folder_exists w then dirs w else {[CACHE_FOLDER]} ∪ dirs w.
Proof.
  unfold stored, with_folder. destruct (folder_exists w); reflexivity.
Qed.

(** A rebuild calls the producer once; what it returns is stored and
    returned, what it raises is raised. *)
Lemma build_cache_run cache_file operation w :
  build_cache cache_file operation w =
  match operation w with
  | (Ok data, w') => (Ok data, stored cache_file data w', 1%nat)
  | (Raise e, w') => (Raise e, w', 1%nat)
  end.
Proof.
  unfold build_cache, mbind, invoke, lift, mret.
  destruct (operation w) as [[data|e] w']; [|reflexivity].
  rewrite write_cache_run. reflexivity.
Qed.

Lemma use_cache_rebuild cache_file_name operation ignorecache w :
  ignorecache = true \/ missing_or_stale (cache_path cache_file_name) w ->
  use_cache cache_file_name operation ignorecache w =
  match operation (logged "Ignoring cache" w) with
  | (Ok data, w') => (Ok data, stored (cache_path cache_file_name) data w', 1%nat)
  | (Raise e, w') => (Raise e, w', 1%nat)
  end.
Proof.
  intros Hwhy. unfold use_cache. fold (cache_path cache_file_name).
  unfold mbind at 1. unfold lift at 1.
  assert (exists b, cache_avail (cache_path cache_file_name) w = (Ok b, w)
                    /\ b && negb ignorecache = false) as (b & -> & ->).
  { destruct Hwhy as [-> | Hstale].
    - destruct (cache_avail_pure (cache_path cache_file_name) w) as [b Hb].
      exists b. split; [exact Hb | apply andb_false_r].
    - exists false. split; [|reflexivity].
      apply cache_avail_missing_or_stale, Hstale. }
  unfold mbind, lift, eprint. fold (logged "Ignoring cache" w).
  rewrite build_cache_run.
  destruct (operation (logged "Ignoring cache" w)) as [[data|e] w']; reflexivity.
Qed.

(** A fresh file that [json.loads] refuses: only [JSONDecodeError] is caught
    and leads to the rebuild; any other exception of the load leaves
    [use_cache] at once. *)
Lemma use_cache_load_raises cache_file_name operation w f :
  fresh (cache_path cache_file_name) w f ->
  json_loads (content f) = None ->
  use_cache cache_file_name operation false w =
  match json_error (content f) with
  | JSONDecodeError =>
      match operation (logged "Cache corrupted" w) with
      | (Ok data, w') => (Ok data, stored (cache_path cache_file_name) data w', 1%nat)
      | (Raise e, w') => (Raise e, w', 1%nat)
      end
  | other => (Raise other, w, 0%nat)
  end.
Proof.
  intros Hfresh Hbad. unfold use_cache. fold (cache_path cache_file_name).
  unfold mbind at 1. unfold lift at 1.
  rewrite (cache_avail_fresh _ _ _ Hfresh). cbn [andb negb].
  destruct Hfresh as [Hf _].
  unfold except_JSONDecodeError, mbind at 1, lift at 1, load_cache, wbind, Os.read.
  rewrite Hf. unfold parse_json. rewrite Hbad. unfold wraise.
  destruct (json_error (content f)); try reflexivity.
  unfold mbind, lift, eprint. fold (logged "Cache corrupted" w).
  rewrite build_cache_run.
  destruct (operation (logged "Cache corrupted" w)) as [[data|e] w']; reflexivity.
Qed.

Lemma use_cache_corrupted cache_file_name operation w f :
  fresh (cache_path cache_file_name) w f ->
  json_loads (content f) = None ->
  json_error (content f) = JSONDecodeError ->
  use_cache cache_file_name operation false w =
  match operation (logged "Cache corrupted" w) with
  | (Ok data, w') => (Ok data, stored (cache_path cache_file_name) data w', 1%nat)
  | (Raise e, w') => (Raise e, w', 1%nat)
  end.
Proof.
  intros Hfresh Hbad Hwhich.
  rewrite (use_cache_load_raises cache_file_name operation w f Hfresh Hbad).
  rewrite Hwhich. reflexivity.
Qed.

Lemma use_cache_hit cache_file_name operation w f data :
  fresh (cache_path cache_file_name) w f ->
  json_loads (content f) = Some data ->
  use_cache cache_file_name operation false w =
  (Ok data,
   logged ("Using cache " ++ Os.basename (cache_path cache_file_name)) w, 0%nat).
Proof.
  intros Hfresh Hgood. unfold use_cache. fold (cache_path cache_file_name).
  unfold mbind at 1. unfold lift at 1.
  rewrite (cache_avail_fresh _ _ _ Hfresh). cbn [andb negb].
  destruct Hfresh as [Hf _].
  unfold except_JSONDecodeError, mbind, lift, load_cache, wbind, Os.read.
  rewrite Hf. unfold parse_json. rewrite Hgood. reflexivity.
Qed.

End CacheFacts.

(** ** The cache *)

Section CacheClaims.

Context `{Platform}.

(** C1: with force-refresh false, a cache file that exists, is less than 3600
    seconds old and parses as JSON makes [use_cache] return the parsed
    content without calling the producer; the only effect is the diagnostic
    "Using cache <name>". *)
Theorem use_cache_fresh_valid_hit cache_file_name operation w f data :
  files w !! cache_path cache_file_name = Some f ->
  clock w - mtime f < 3600 ->
  json_loads (content f) = Some data ->
  returned (use_cache cache_file_name operation false w) = Ok data
  /\ producer_calls (use_cache cache_file_name operation false w) = 0%nat
  /\ final (use_cache cache_file_name operation false w)
     = logged ("Using cache " ++ Os.basename (cache_path cache_file_name)) w.
Proof.
  intros Hf Hage Hgood.
  rewrite (use_cache_hit cache_file_name operation w f data);
    [repeat split | split; assumption | assumption].
Qed.

(** C2: a fresh cache file on whose text [json.loads] raises
    [JSONDecodeError] makes [use_cache] print "Cache corrupted" and call the
    producer once.  When the producer returns, its result is serialized over
    the file and returned, and the error of the load does not leave
    [use_cache]; when the producer raises, its exception leaves [use_cache]
    and the world is as the producer left it, the file not rewritten. *)
Theorem use_cache_corrupted_rebuilds cache_file_name operation w f :
  files w !! cache_path cache_file_name = Some f ->
  clock w - mtime f < 3600 ->
  json_loads (content f) = None ->
  json_error (content f) = JSONDecodeError ->
  producer_calls (use_cache cache_file_name operation false w) = 1%nat
  /\ (forall data w',
        operation (logged "Cache corrupted" w) = (Ok data, w') ->
        returned (use_cache cache_file_name operation false w) = Ok data
        /\ final (use_cache cache_file_name operation false w)
           = stored (cache_path cache_file_name) data w'
        /\ files (final (use_cache cache_file_name operation false w))
             !! cache_path cache_file_name
           = Some (File (json_dumps data) (clock w')))
  /\ (forall e w',
        operation (logged "Cache corrupted" w) = (Raise e, w') ->
        returned (use_cache cache_file_name operation false w) = Raise e
        /\ final (use_cache cache_file_name operation false w) = w').
Proof.
  intros Hf Hage Hbad Hwhich.
  rewrite (use_cache_corrupted cache_file_name operation w f);
    [| split; assumption | assumption | assumption].
  split; [|split].
  - destruct (operation (logged "Cache corrupted" w)) as [[data|e] w']; reflexivity.
  - intros data w' Hop. rewrite Hop. repeat split.
    unfold final, stored. simpl. apply lookup_insert_eq.
  - intros e w' Hop. rewrite Hop. split; reflexivity.
Qed.

(** C3: when force-refresh is true, or the cache file is missing, or it is
    3600 seconds old or older, [use_cache] calls the producer once, creates
    the cache folder if it is absent, overwrites the cache file with the
    serialized result and returns the result. *)
Theorem use_cache_rebuilds cache_file_name operation ignorecache w :
  ignorecache = true
  \/ files w !! cache_path cache_file_name = None
  \/ (exists f, files w !! cache_path cache_file_name = Some f
                /\ 3600 <= clock w - mtime f) ->
  producer_calls (use_cache cache_file_name operation ignorecache w) = 1%nat
  /\ forall data w',
       operation (logged "Ignoring cache" w) = (Ok data, w') ->
       returned (use_cache cache_file_name operation ignorecache w) = Ok data
       /\ final (use_cache cache_file_name operation ignorecache w)
          = stored (cache_path cache_file_name) data w'
       /\ files (final (use_cache cache_file_name operation ignorecache w))
            !! cache_path cache_file_name
          = Some (File (json_dumps data) (clock w'))
       /\ folder_exists (final (use_cache cache_file_name operation ignorecache w))
          = true
       /\ dirs (final (use_cache cache_file_name operation ignorecache w))
          = (if folder_exists w' then dirs w' else {[CACHE_FOLDER]} ∪ dirs w').
Proof.
  intros Hwhy.
  rewrite (use_cache_rebuild cache_file_name operation ignorecache w);
    [| destruct Hwhy as [Hforce | [Hnone | Hold]];
       [left; exact Hforce | right; left; exact Hnone | right; right; exact Hold]].
  split.
  - destruct (operation (logged "Ignoring cache" w)) as [[data|e] w']; reflexivity.
  - intros data w' Hop.
    rewrite Hop. unfold returned, producer_calls, final. simpl.
    split; [reflexivity|]. split; [reflexivity|].
    split; [unfold stored; simpl; apply lookup_insert_eq|].
    split; [exact (stored_folder_exists (cache_path cache_file_name) data w')
           | exact (stored_dirs (cache_path cache_file_name) data w')].
Qed.

End CacheClaims.

Module CacheRuns.
Import Example MoreExamples.
#[local] Existing Instance python.

(** The region cache written ten minutes ago is used as it is. *)
Lemma warm_region_cache_is_used :
  returned (use_cache "regions.cache" get_regions_data_operation false warm)
    = Ok regions_payload
  /\ producer_calls (use_cache "regions.cache" get_regions_data_operation false warm)
    = 0%nat
  /\ final (use_cache "regions.cache" get_regions_data_operation false warm)
    = logged ("Using cache " ++ Os.basename (cache_path "regions.cache")) warm.
Proof.
  apply (use_cache_fresh_valid_hit "regions.cache" get_regions_data_operation warm
           (File (Json.dumps regions_payload) 1700000000) regions_payload).
  - vm_compute. reflexivity.
  - vm_compute. reflexivity.
  - vm_compute. reflexivity.
Defined.

(** The damaged region cache is rebuilt from a producer. *)
Lemma damaged_region_cache_is_rebuilt :
  producer_calls (use_cache "regions.cache" (constant regions_payload) false damaged)
    = 1%nat
  /\ returned (use_cache "regions.cache" (constant regions_payload) false damaged)
    = Ok regions_payload
  /\ files (final (use_cache "regions.cache" (constant regions_payload) false damaged))
       !! cache_path "regions.cache"
     = Some (File (json_dumps regions_payload) 1700000600).
Proof.
  destruct (use_cache_corrupted_rebuilds "regions.cache" (constant regions_payload)
              damaged (File "[{" 1700000000)) as (Hcalls & Hdata & _).
  - vm_compute. reflexivity.
  - vm_compute. reflexivity.
  - vm_compute. reflexivity.
  - vm_compute. reflexivity.
  - destruct (Hdata regions_payload (logged "Cache corrupted" damaged) eq_refl)
      as (Hreturned & _ & Hfile).
    split; [exact Hcalls|]. split; [exact Hreturned | exact Hfile].
Defined.

(** C2, as the specification has it, for every producer and without an
    exception leaving [use_cache].  The region cache is ten minutes old and
    no JSON.  With a server that answers with a web page the producer is
    called and raises: its [JSONDecodeError] leaves [use_cache], and the
    damaged file is still there, as old as it was.  With three thousand open
    brackets in the file the load ends in [RecursionError], which leaves
    [use_cache] before anything is printed or the producer is called. *)
Lemma damaged_cache_and_failing_producer :
  (files garbled !! cache_path "regions.cache" = Some (File "[{" 1700000000)
   /\ clock garbled - 1700000000 < 3600
   /\ json_loads "[{" = None
   /\ returned (use_cache "regions.cache" get_regions_data_operation false garbled)
      = Raise JSONDecodeError
   /\ producer_calls (use_cache "regions.cache" get_regions_data_operation false garbled)
      = 1%nat
   /\ files (final (use_cache "regions.cache" get_regions_data_operation false garbled))
        !! cache_path "regions.cache"
      = Some (File "[{" 1700000000))
  /\ (files nested !! cache_path "regions.cache" = Some (File (brackets 3000) 1700000000)
      /\ clock nested - 1700000000 < 3600
      /\ json_loads (brackets 3000) = None
      /\ use_cache "regions.cache" (constant regions_payload) false nested
         = (Raise RecursionError, nested, 0%nat)).
Proof.
  split.
  - vm_compute. repeat split.
  - split; [vm_compute; reflexivity|]. split; [vm_compute; reflexivity|].
    split; vm_compute; reflexivity.
Qed.

(** The region cache that is two hours old is rebuilt. *)
Lemma expired_region_cache_is_rebuilt :
  producer_calls (use_cache "regions.cache" (constant regions_payload) false expired)
    = 1%nat
  /\ returned (use_cache "regions.cache" (constant regions_payload) false expired)
    = Ok regions_payload
  /\ files (final (use_cache "regions.cache" (constant regions_payload) false expired))
       !! cache_path "regions.cache"
     = Some (File (json_dumps regions_payload) 1700007200)
  /\ folder_exists
       (final (use_cache "regions.cache" (constant regions_payload) false expired))
     = true.
Proof.
  destruct (use_cache_rebuilds "regions.cache" (constant regions_payload) false expired)
    as [Hcalls Hdata].
  - right. right. exists (File (Json.dumps regions_payload) 1700000000).
    split; [vm_compute; reflexivity | vm_compute; discriminate].
  - destruct (Hdata regions_payload (logged "Ignoring cache" expired) eq_refl)
      as (Hreturned & _ & Hfile & Hfolder & _).
    split; [exact Hcalls|]. split; [exact Hreturned|].
    split; [exact Hfile | exact Hfolder].
Defined.

End CacheRuns.

(** ** The order of strings *)

Module StrOrderFacts.
Import StrOrder.

Lemma ascii_compare_refl c : Ascii.compare c c = Eq.
Proof. unfold Ascii.compare. apply N.compare_refl. Qed.

Lemma compare_refl s : String.compare s s = Eq.
Proof.
  induction s as [|c s IH]; simpl; [reflexivity|].
  rewrite ascii_compare_refl. exact IH.
Qed.

Lemma ascii_compare_lt_trans a b c :
  Ascii.compare a b = Lt -> Ascii.compare b c = Lt -> Ascii.compare a c = Lt.
Proof.
  unfold Ascii.compare. rewrite !N.compare_lt_iff. apply N.lt_trans.
Qed.

Lemma compare_lt_trans a : forall b c,
  String.compare a b = Lt -> String.compare b c = Lt -> String.compare a c = Lt.
Proof.
  induction a as [|x a IH]; intros [|y b] [|z c]; simpl; try congruence.
  destruct (Ascii.compare x y) eqn:Hxy; try discriminate;
    destruct (Ascii.compare y z) eqn:Hyz; try discriminate; intros Hab Hbc.
  - apply Ascii.compare_eq_iff in Hxy, Hyz. subst.
    rewrite ascii_compare_refl. eapply IH; eassumption.
  - apply Ascii.compare_eq_iff in Hxy. subst. rewrite Hyz. reflexivity.
  - apply Ascii.compare_eq_iff in Hyz. subst. rewrite Hxy. reflexivity.
  - rewrite (ascii_compare_lt_trans _ _ _ Hxy Hyz). reflexivity.
Qed.

Lemma ltb_compare a b : String.ltb a b = true <-> String.compare a b = Lt.
Proof. unfold String.ltb. destruct (String.compare a b); split; congruence. Qed.

Lemma lt_irrefl a : ~ lt a a.
Proof. unfold lt. rewrite ltb_compare, compare_refl. discriminate. Qed.

Lemma lt_trans a b c : lt a b -> lt b c -> lt a c.
Proof. unfold lt. rewrite !ltb_compare. apply compare_lt_trans. Qed.

Lemma lt_le a b : lt a b -> le a b.
Proof.
  unfold lt, le. rewrite ltb_compare. intros Hab.
  destruct (String.ltb b a) eqn:Hba; [|reflexivity].
  apply ltb_compare in Hba. rewrite String.compare_antisym, Hab in Hba. discriminate.
Qed.

(** Two strings are ordered one way or the other, or they are equal. *)
Lemma le_lt_or_eq a b : le a b -> lt a b \/ a = b.
Proof.
  unfold le, lt, String.ltb. rewrite (String.compare_antisym b a).
  destruct (String.compare a b) eqn:Hab; simpl; try discriminate; intros _.
  - right. apply String.compare_eq_iff, Hab.
  - left. reflexivity.
Qed.

Lemma le_trans a b c : le a b -> le b c -> le a c.
Proof.
  intros Hab Hbc.
  destruct (le_lt_or_eq _ _ Hab) as [Hlt1| ->]; [|exact Hbc].
  destruct (le_lt_or_eq _ _ Hbc) as [Hlt2| <-]; [|exact Hab].
  apply lt_le. eapply lt_trans; eassumption.
Qed.

End StrOrderFacts.

(** ** Sorting and deduplicating a list of [str] *)

Module StrListFacts.
Import StrList.

Lemma py_insert x l :
  Py.insert (JStr x) (map JStr l) = Ok (map JStr (insert x l)).
Proof.
  induction l as [|y l IH]; simpl; [reflexivity|].
  destruct (String.ltb y x); simpl; [|reflexivity].
  rewrite IH. reflexivity.
Qed.

Lemma py_sort l : Py.sort (map JStr l) = Ok (map JStr (sort l)).
Proof.
  induction l as [|x l IH]; simpl; [reflexivity|].
  rewrite IH. simpl. apply py_insert.
Qed.

Lemma py_seen x seen :
  existsb (Py.eq (JStr x)) (map JStr seen) = existsb (String.eqb x) seen.
Proof.
  induction seen as [|y seen IH]; simpl; [reflexivity|]. rewrite IH. reflexivity.
Qed.

Lemma py_fromkeys_from l : forall seen,
  Py.fromkeys_from (map JStr seen) (map JStr l) = Ok (map JStr (unique_from seen l)).
Proof.
  induction l as [|x l IH]; intros seen; simpl; [reflexivity|].
  rewrite py_seen. destruct (existsb (String.eqb x) seen).
  - apply IH.
  - rewrite <- IH. rewrite map_app. reflexivity.
Qed.

Lemma py_sort_unique l :
  sort_unique (map JStr l) = Ok (map JStr (unique (sort l))).
Proof.
  unfold sort_unique. rewrite py_sort. simpl.
  exact (py_fromkeys_from (sort l) []).
Qed.

Lemma In_insert x y l : In y (insert x l) <-> y = x \/ In y l.
Proof.
  induction l as [|z l IH]; simpl; [intuition congruence|].
  destruct (String.ltb z x); simpl; [rewrite IH|]; intuition congruence.
Qed.

Lemma In_sort y l : In y (sort l) <-> In y l.
Proof.
  induction l as [|x l IH]; simpl; [tauto|].
  rewrite In_insert, IH. intuition congruence.
Qed.

Lemma insert_ascending x l : ascending l -> ascending (insert x l).
Proof.
  unfold ascending. induction l as [|y l IH]; simpl; intros Hl.
  - constructor; constructor.
  - inversion Hl as [|? ? Hl' Hy]; subst.
    destruct (String.ltb y x) eqn:Hyx.
    + constructor; [apply IH, Hl'|].
      apply List.Forall_forall. intros z Hz. apply In_insert in Hz as [->|Hz].
      * apply StrOrderFacts.lt_le, Hyx.
      * rewrite List.Forall_forall in Hy. apply Hy, Hz.
    + constructor; [exact Hl|].
      constructor; [exact Hyx|].
      rewrite List.Forall_forall in Hy |- *. intros z Hz.
      eapply StrOrderFacts.le_trans; [exact Hyx | apply Hy, Hz].
Qed.

Lemma sort_ascending l : ascending (sort l).
Proof.
  induction l as [|x l IH]; simpl; [constructor | apply insert_ascending, IH].
Qed.

Lemma seen_In x seen : existsb (String.eqb x) seen = true <-> In x seen.
Proof.
  rewrite existsb_exists. split.
  - intros (y & Hy & Heq). apply String.eqb_eq in Heq. subst. exact Hy.
  - intros Hx. exists x. split; [exact Hx | apply String.eqb_refl].
Qed.

Lemma strictly_ascending_snoc seen x :
  strictly_ascending seen -> (forall a, In a seen -> StrOrder.lt a x) ->
  strictly_ascending (seen ++ [x]).
Proof.
  unfold strictly_ascending. induction seen as [|y seen IH]; simpl; intros Hs Hx.
  - constructor; constructor.
  - inversion Hs as [|? ? Hs' Hy]; subst. constructor.
    + apply IH; [exact Hs' | intros a Ha; apply Hx; right; exact Ha].
    + apply Forall_app. split; [exact Hy|].
      constructor; [apply Hx; left; reflexivity | constructor].
Qed.

Lemma strictly_ascending_app_inv l1 x l2 :
  strictly_ascending (l1 ++ x :: l2) -> forall a, In a l1 -> StrOrder.lt a x.
Proof.
  unfold strictly_ascending. induction l1 as [|y l1 IH]; simpl; intros Hs a Ha.
  - contradiction.
  - inversion Hs as [|? ? Hs' Hy]; subst. destruct Ha as [->|Ha].
    + rewrite List.Forall_forall in Hy. apply Hy, in_elt.
    + apply IH; assumption.
Qed.

Lemma unique_from_spec l : forall seen,
  strictly_ascending seen -> ascending l ->
  (forall a b, In a seen -> In b l -> StrOrder.le a b) ->
  strictly_ascending (unique_from seen l)
  /\ (forall y, In y (unique_from seen l) <-> In y seen \/ In y l).
Proof.
  induction l as [|x l IH]; simpl; intros seen Hseen Hl Hcross.
  - split; [exact Hseen | intros y; tauto].
  - inversion Hl as [|? ? Hl' Hx]; subst.
    rewrite List.Forall_forall in Hx.
    destruct (existsb (String.eqb x) seen) eqn:Hmem.
    + apply seen_In in Hmem.
      destruct (IH seen Hseen Hl') as [Hs Hin].
      { intros a b Ha Hb. apply Hcross; [exact Ha | right; exact Hb]. }
      split; [exact Hs|]. intros y. rewrite Hin.
      split; [tauto|]. intros [Hy|[<-|Hy]]; tauto.
    + assert (Hnot : ~ In x seen).
      { intros Hin. apply seen_In in Hin. congruence. }
      destruct (IH (seen ++ [x])%list) as [Hs Hin].
      * apply strictly_ascending_snoc; [exact Hseen|]. intros a Ha.
        destruct (StrOrderFacts.le_lt_or_eq a x) as [Hlt| ->];
          [apply Hcross; [exact Ha | left; reflexivity] | exact Hlt | contradiction].
      * exact Hl'.
      * intros a b Ha Hb. apply in_app_or in Ha as [Ha|[<-|[]]].
        -- apply Hcross; [exact Ha | right; exact Hb].
        -- apply Hx, Hb.
      * split; [exact Hs|]. intros y. rewrite Hin, in_app_iff. simpl.
        split; [intros [[Hy|[Hy|[]]]|Hy] | intros [Hy|[Hy|Hy]]]; auto.
Qed.

Lemma unique_sort_spec l :
  strictly_ascending (unique (sort l))
  /\ (forall y, In y (unique (sort l)) <-> In y l).
Proof.
  destruct (unique_from_spec (sort l) []) as [Hs Hin].
  - constructor.
  - apply sort_ascending.
  - intros a b [].
  - split; [exact Hs|]. intros y. unfold unique. rewrite Hin, In_sort.
    simpl. tauto.
Qed.

Lemma unique_from_fixed l : forall seen,
  strictly_ascending (seen ++ l) -> unique_from seen l = (seen ++ l)%list.
Proof.
  induction l as [|x l IH]; simpl; intros seen Hs.
  - rewrite app_nil_r. reflexivity.
  - destruct (existsb (String.eqb x) seen) eqn:Hmem.
    + apply seen_In in Hmem.
      exfalso. apply (StrOrderFacts.lt_irrefl x).
      apply (strictly_ascending_app_inv seen x l Hs x Hmem).
    + rewrite IH; rewrite <- app_assoc; [reflexivity | exact Hs].
Qed.

Lemma unique_fixed l : strictly_ascending l -> unique l = l.
Proof. intros Hs. exact (unique_from_fixed l [] Hs). Qed.

Lemma sort_fixed l : strictly_ascending l -> sort l = l.
Proof.
  unfold strictly_ascending. induction l as [|x l IH]; simpl; intros Hs;
    [reflexivity|].
  inversion Hs as [|? ? Hs' Hx]; subst. rewrite (IH Hs').
  destruct l as [|y l]; simpl; [reflexivity|].
  inversion Hx as [|? ? Hxy _]; subst.
  apply StrOrderFacts.lt_le in Hxy. unfold StrOrder.le in Hxy. rewrite Hxy. reflexivity.
Qed.

Lemma strictly_ascending_NoDup l : strictly_ascending l -> List.NoDup l.
Proof.
  unfold strictly_ascending. induction l as [|x l IH]; intros Hs;
    [constructor|].
  inversion Hs as [|? ? Hs' Hx]; subst. constructor; [|apply IH, Hs'].
  intros Hin. rewrite List.Forall_forall in Hx.
  exact (StrOrderFacts.lt_irrefl x (Hx x Hin)).
Qed.

End StrListFacts.

(** ** The item extractor *)

Lemma get_items_step_descriptor elem item required items service :
  is_descriptor elem item service = true ->
  get_items_step item required items service
  = Ok (if included item required service
        then (items ++ field_values item service)%list else items).
Proof.
  destruct service as [| | | |l|kvs]; try discriminate. simpl.
  unfold get_items_step, included, has_field, required_flag, field_values. simpl.
  unfold Py.has_key.
  destruct (Py.assoc item kvs) as [field|] eqn:Hitem; simpl; [|reflexivity].
  destruct (Py.assoc "required" kvs) as [r|] eqn:Hreq; simpl; [|discriminate].
  destruct field as [| | | |l|]; try discriminate. intros _.
  destruct (Py.truthy r), required; reflexivity.
Qed.

Lemma get_items_loop_descriptors elem item required services : forall items,
  Forall (fun service => is_descriptor elem item service = true) services ->
  get_items_loop item required items services
  = Ok (items ++ List.flat_map (field_values item)
                   (List.filter (included item required) services))%list.
Proof.
  induction services as [|service rest IH]; simpl; intros items Hall.
  - rewrite app_nil_r. reflexivity.
  - inversion Hall as [|? ? Hservice Hrest]; subst.
    rewrite (get_items_step_descriptor elem _ _ _ _ Hservice). simpl.
    rewrite (IH _ Hrest).
    destruct (included item required service); simpl; [|reflexivity].
    rewrite <- app_assoc. reflexivity.
Qed.

Lemma get_items_accumulator_descriptors elem item required services :
  Forall (fun service => is_descriptor elem item service = true) services ->
  get_items_accumulator (JArr services) item required
  = Ok (List.flat_map (field_values item)
          (List.filter (included item required) services)).
Proof.
  intros Hall. unfold get_items_accumulator. simpl.
  exact (get_items_loop_descriptors elem item required services [] Hall).
Qed.

(** C4: the values of a descriptor's field are put in the accumulator exactly
    when the descriptor holds the field and it is not the case that only
    required items are wanted while the descriptor's flag is false: the
    accumulator is the fields of these descriptors, one after the other.
    For the two descriptors of the example, required-only extraction gives
    ["b.com"] and full extraction gives ["a.com", "b.com"]. *)
Theorem get_items_required_filter :
  (forall services item required,
     Forall (fun service => is_descriptor any_value item service = true) services ->
     get_items_accumulator (JArr services) item required
     = Ok (List.flat_map (field_values item)
             (List.filter (included item required) services)))
  /\ (forall item required service,
        included item required service = true
        <-> has_field item service = true
            /\ ~ (required = true /\ required_flag service = false))
  /\ get_items_of
       (JArr [JObj [("required", JBool true); ("urls", JArr [JStr "b.com"])];
              JObj [("required", JBool false); ("urls", JArr [JStr "a.com"])]])
       "urls" true
     = Ok [JStr "b.com"]
  /\ get_items_of
       (JArr [JObj [("required", JBool true); ("urls", JArr [JStr "b.com"])];
              JObj [("required", JBool false); ("urls", JArr [JStr "a.com"])]])
       "urls" false
     = Ok [JStr "a.com"; JStr "b.com"].
Proof.
  split; [|split; [|split]].
  - intros services item required Hall.
    exact (get_items_accumulator_descriptors any_value item required services Hall).
  - intros item required service. unfold included. split.
    + intros Hinc. apply andb_true_iff in Hinc as [Hfield Hflag].
      split; [exact Hfield|]. intros [-> Hoff].
      rewrite Hoff in Hflag. discriminate.
    + intros [Hfield Hn]. rewrite Hfield. simpl.
      destruct required, (required_flag service); try reflexivity.
      exfalso. apply Hn. split; reflexivity.
  - vm_compute. reflexivity.
  - vm_compute. reflexivity.
Qed.

Lemma get_items_required_filter_run :
  get_items_accumulator Example.descriptors "urls" true = Ok [JStr "b.com"]
  /\ get_items_accumulator Example.descriptors "urls" false
     = Ok [JStr "b.com"; JStr "a.com"].
Proof.
  unfold Example.descriptors. split.
  - rewrite (proj1 get_items_required_filter
               [JObj [("id", JInt 1); ("required", JBool true);
                      ("urls", JArr [JStr "b.com"])];
                JObj [("id", JInt 2); ("required", JBool false);
                      ("urls", JArr [JStr "a.com"])]] "urls" true).
    + vm_compute. reflexivity.
    + repeat constructor.
  - rewrite (proj1 get_items_required_filter
               [JObj [("id", JInt 1); ("required", JBool true);
                      ("urls", JArr [JStr "b.com"])];
                JObj [("id", JInt 2); ("required", JBool false);
                      ("urls", JArr [JStr "a.com"])]] "urls" false).
    + vm_compute. reflexivity.
    + repeat constructor.
Defined.

Lemma strings_of_all_str l : forallb is_str l = true -> l = map JStr (strings_of l).
Proof.
  induction l as [|v l IH]; simpl; [reflexivity|].
  destruct v; simpl; try discriminate. intros Hl. rewrite <- (IH Hl). reflexivity.
Qed.

Lemma field_values_all_str item service :
  is_descriptor is_str item service = true ->
  forallb is_str (field_values item service) = true.
Proof.
  destruct service as [| | | |l|kvs]; try reflexivity. simpl.
  unfold Py.has_key.
  destruct (Py.assoc item kvs) as [[| | | |l|]|]; try reflexivity.
  intros Hd. apply andb_true_iff in Hd as [_ Hl]. exact Hl.
Qed.

Lemma accumulated_all_str item required services :
  Forall (fun service => is_descriptor is_str item service = true) services ->
  forallb is_str
    (List.flat_map (field_values item)
       (List.filter (included item required) services)) = true.
Proof.
  induction services as [|service rest IH]; simpl; intros Hall; [reflexivity|].
  inversion Hall as [|? ? Hservice Hrest]; subst.
  destruct (included item required service); simpl; [|apply IH, Hrest].
  rewrite forallb_app, (field_values_all_str _ _ Hservice), (IH Hrest). reflexivity.
Qed.

Lemma In_strings_of s l : In s (strings_of l) <-> In (JStr s) l.
Proof.
  induction l as [|v l IH]; simpl; [tauto|].
  unfold strings_of in *. simpl. rewrite in_app_iff, IH.
  destruct v; simpl; intuition congruence.
Qed.

Section ItemClaims.

Context `{Platform}.

(** What [get_items] returns is the extraction from what the endpoint
    accessor returns. *)
Lemma get_items_run region item required ignorecache w :
  returned (get_items region item required ignorecache w)
  = rbind (returned (get_endpoint_data region ignorecache w))
      (fun data => get_items_of data item required).
Proof.
  unfold get_items, mbind, returned.
  destruct (get_endpoint_data region ignorecache w) as [[[data|e] w'] n]; simpl;
    reflexivity.
Qed.

(** C5: for a list of endpoint descriptors, the extraction returns the
    strings of the accumulator in strictly ascending order, hence sorted and
    without duplicates; sorting and deduplicating the output again gives the
    output; and two runs of [get_items] that read the same descriptors return
    the same list, whatever the clock, the cache and the flags are. *)
Theorem get_items_sorted_unique_deterministic services item required :
  Forall (fun service => is_descriptor is_str item service = true) services ->
  exists out : list string,
    get_items_of (JArr services) item required = Ok (map JStr out)
    /\ StronglySorted (fun a b => String.ltb a b = true) out
    /\ List.NoDup out
    /\ (forall s, In s out
                  <-> In (JStr s)
                        (List.flat_map (field_values item)
                           (List.filter (included item required) services)))
    /\ sort_unique (map JStr out) = Ok (map JStr out)
    /\ (forall region region' ignorecache ignorecache' w w',
          returned (get_endpoint_data region ignorecache w) = Ok (JArr services) ->
          returned (get_endpoint_data region' ignorecache' w') = Ok (JArr services) ->
          returned (get_items region item required ignorecache w) = Ok (map JStr out)
          /\ returned (get_items region' item required ignorecache' w')
             = Ok (map JStr out)).
Proof.
  intros Hall.
  set (items := List.flat_map (field_values item)
                  (List.filter (included item required) services)).
  pose proof (accumulated_all_str item required services Hall) as Hstr.
  fold items in Hstr. apply strings_of_all_str in Hstr.
  destruct (StrListFacts.unique_sort_spec (strings_of items)) as [Hsorted Hsame].
  assert (Hrun : get_items_of (JArr services) item required
                 = Ok (map JStr (StrList.unique (StrList.sort (strings_of items))))).
  { unfold get_items_of.
    rewrite (get_items_accumulator_descriptors is_str item required services Hall).
    fold items. simpl. rewrite Hstr at 1. apply StrListFacts.py_sort_unique. }
  exists (StrList.unique (StrList.sort (strings_of items))).
  split; [exact Hrun|]. split; [exact Hsorted|].
  split; [apply StrListFacts.strictly_ascending_NoDup, Hsorted|].
  split; [intros s; rewrite Hsame; apply In_strings_of|].
  split.
  - rewrite StrListFacts.py_sort_unique.
    rewrite (StrListFacts.sort_fixed _ Hsorted), (StrListFacts.unique_fixed _ Hsorted).
    reflexivity.
  - intros region region' ignorecache ignorecache' w w' Hdata Hdata'.
    rewrite !get_items_run, Hdata, Hdata'. simpl. split; exact Hrun.
Qed.

End ItemClaims.

Module ItemRuns.
Import Example.
#[local] Existing Instance python.

(** The descriptors of the example, read from a warm cache and fetched again
    with the cache ignored. *)
Lemma example_descriptors_sorted_unique :
  exists out : list string,
    get_items_of descriptors "urls" false = Ok (map JStr out)
    /\ StronglySorted (fun a b => String.ltb a b = true) out
    /\ List.NoDup out
    /\ sort_unique (map JStr out) = Ok (map JStr out)
    /\ returned (get_items "worldwide" "urls" false false warm) = Ok (map JStr out)
    /\ returned (get_items "worldwide" "urls" false true first_run)
       = Ok (map JStr out).
Proof.
  unfold descriptors.
  destruct (get_items_sorted_unique_deterministic
              [JObj [("id", JInt 1); ("required", JBool true);
                     ("urls", JArr [JStr "b.com"])];
               JObj [("id", JInt 2); ("required", JBool false);
                     ("urls", JArr [JStr "a.com"])]] "urls" false)
    as (out & Hrun & Hsorted & Hnodup & _ & Hfixed & Hsame).
  - repeat constructor.
  - exists out. repeat (split; [assumption|]).
    apply (Hsame "worldwide" "worldwide" false true warm first_run).
    + vm_compute. reflexivity.
    + vm_compute. reflexivity.
Defined.

End ItemRuns.

(** ** The ["required"] key *)

Lemma get_items_loop_ok item required services : forall items out,
  get_items_loop item required items services = Ok out ->
  forall service, In service services ->
  exists before after, get_items_step item required before service = Ok after.
Proof.
  induction services as [|first rest IH]; simpl; intros items out Hrun service Hin;
    [contradiction|].
  destruct (get_items_step item required items first) as [items'|e] eqn:Hstep;
    simpl in Hrun; [|discriminate].
  destruct Hin as [<-|Hin]; [eauto|].
  exact (IH items' out Hrun service Hin).
Qed.

Lemma get_items_loop_no_KeyError item required services : forall items k,
  (forall service, In service services ->
     Py.contains item service = Ok true ->
     exists r, Py.getitem service "required" = Ok r) ->
  get_items_loop item required items services <> Raise (KeyError k).
Proof.
  induction services as [|first rest IH]; simpl; intros items k Hpre;
    [discriminate|].
  assert (Hstep : (exists items', get_items_step item required items first = Ok items')
                  \/ get_items_step item required items first = Raise TypeError).
  { unfold get_items_step.
    destruct (Py.contains item first) as [[|]|e] eqn:Hc; simpl.
    - destruct (Hpre first (or_introl eq_refl) Hc) as [r Hr]. rewrite Hr. simpl.
      destruct (negb (negb (Py.truthy r) && required)); [|eauto].
      destruct first as [| | | |l|kvs]; try discriminate. simpl in Hc |- *.
      injection Hc as Hc. unfold Py.has_key in Hc.
      destruct (Py.assoc item kvs) as [field|]; [|discriminate]. simpl.
      destruct field; simpl; eauto.
    - eauto.
    - destruct first; simpl in Hc; try discriminate; injection Hc as <-; eauto. }
  destruct Hstep as [[items' ->] | ->]; simpl; [|discriminate].
  apply IH. intros service Hin. apply Hpre. right. exact Hin.
Qed.

(** C10: ["required"] is read from every descriptor that holds the wanted
    field, also when all items are wanted: a descriptor with the field and
    without ["required"] raises [KeyError].  So an extraction that returns
    has met ["required"] in every descriptor holding the field, under that
    precondition no [KeyError] is raised, and the one descriptor
    [{urls: ["a.com"]}] raises it with required-only false. *)
Theorem get_items_needs_required_key :
  (forall item required items kvs,
     Py.has_key item kvs = true -> Py.assoc "required" kvs = None ->
     get_items_step item required items (JObj kvs) = Raise (KeyError "required"))
  /\ (forall services item required out,
        get_items_of (JArr services) item required = Ok out ->
        forall service, In service services ->
        Py.contains item service = Ok true ->
        exists r, Py.getitem service "required" = Ok r)
  /\ (forall services item required k,
        (forall service, In service services ->
           Py.contains item service = Ok true ->
           exists r, Py.getitem service "required" = Ok r) ->
        get_items_of (JArr services) item required <> Raise (KeyError k))
  /\ get_items_of (JArr [JObj [("urls", JArr [JStr "a.com"])]]) "urls" false
     = Raise (KeyError "required").
Proof.
  split; [|split; [|split]].
  - intros item required items kvs Hitem Hreq.
    unfold get_items_step. simpl. rewrite Hitem, Hreq. reflexivity.
  - intros services item required out Hrun service Hin Hc.
    unfold get_items_of, get_items_accumulator in Hrun. simpl in Hrun.
    destruct (get_items_loop item required [] services) as [items|e] eqn:Hloop;
      [|discriminate].
    destruct (get_items_loop_ok _ _ _ _ _ Hloop service Hin) as (before & after & Hstep).
    unfold get_items_step in Hstep. rewrite Hc in Hstep. simpl in Hstep.
    destruct (Py.getitem service "required") as [r|e]; [eauto | discriminate].
  - intros services item required k Hpre.
    unfold get_items_of, get_items_accumulator. simpl.
    pose proof (get_items_loop_no_KeyError item required services [] k Hpre) as Hloop.
    destruct (get_items_loop item required [] services) as [items|e]; simpl.
    + unfold sort_unique.
      assert (Hsort : forall l, Py.sort l <> Raise (KeyError k)).
      { assert (Hlt : forall x y, Py.lt x y <> Raise (KeyError k)).
        { intros x y. unfold Py.lt.
          destruct x, y; simpl; try discriminate;
            repeat match goal with |- context [if ?b then _ else _] => destruct b end;
            discriminate. }
        assert (Hins : forall x l, Py.insert x l <> Raise (KeyError k)).
        { intros x l. induction l as [|y l IH]; simpl; [discriminate|].
          specialize (Hlt y x). destruct (Py.lt y x) as [[|]|e]; simpl;
            [|discriminate|congruence].
          destruct (Py.insert x l); simpl; [discriminate | congruence]. }
        intros l. induction l as [|x l IH]; simpl; [discriminate|].
        destruct (Py.sort l); simpl; [apply Hins | congruence]. }
      assert (Hkeys : forall l seen, Py.fromkeys_from seen l <> Raise (KeyError k)).
      { intros l. induction l as [|x l IH]; simpl; intros seen; [discriminate|].
        destruct (Py.hashable x); [apply IH | discriminate]. }
      specialize (Hsort items). destruct (Py.sort items); simpl;
        [apply Hkeys | congruence].
    + congruence.
  - vm_compute. reflexivity.
Qed.

(** The descriptors of the example hold ["required"]. *)
Lemma example_descriptors_hold_required :
  (exists r, Py.getitem
               (JObj [("id", JInt 1); ("required", JBool true);
                      ("urls", JArr [JStr "b.com"])]) "required" = Ok r)
  /\ get_items_step "urls" false [] (JObj [("urls", JArr [JStr "a.com"])])
     = Raise (KeyError "required")
  /\ get_items_of Example.descriptors "urls" true <> Raise (KeyError "required").
Proof.
  split; [|split].
  - apply (proj1 (proj2 get_items_needs_required_key)
             [JObj [("id", JInt 1); ("required", JBool true);
                    ("urls", JArr [JStr "b.com"])];
              JObj [("id", JInt 2); ("required", JBool false);
                    ("urls", JArr [JStr "a.com"])]]
             "urls" true [JStr "b.com"]).
    + vm_compute. reflexivity.
    + left. reflexivity.
    + vm_compute. reflexivity.
  - apply (proj1 get_items_needs_required_key "urls" false []
             [("urls", JArr [JStr "a.com"])]); reflexivity.
  - apply (proj1 (proj2 (proj2 get_items_needs_required_key))).
    intros service [<-|[<-|[]]] _; eexists; reflexivity.
Defined.

(** ** The output file *)

Lemma append_cons (c : ascii) (a b : string) : String c a ++ b = String c (a ++ b).
Proof. reflexivity. Qed.

Lemma append_empty_r (s : string) : s ++ "" = s.
Proof.
  induction s as [|c s IH]; [reflexivity|]. rewrite append_cons, IH. reflexivity.
Qed.

Lemma append_assoc (a b c : string) : (a ++ b) ++ c = a ++ (b ++ c).
Proof.
  induction a as [|x a IH]; [reflexivity|]. rewrite !append_cons, IH. reflexivity.
Qed.

Lemma append_empty (a b : string) : a ++ b = "" -> a = "" /\ b = "".
Proof.
  destruct a; [intros Hb; split; [reflexivity | exact Hb]|].
  rewrite append_cons. discriminate.
Qed.

Lemma write_opened filename text w f :
  files w !! filename = Some f ->
  Os.write filename text w = (Ok tt, write_world filename text w)
  /\ files (write_world filename text w) !! filename
     = Some (File (content f ++ text)
               (if String.eqb text "" then mtime f else clock w))
  /\ clock (write_world filename text w) = clock w.
Proof.
  intros Hf. unfold write_world, Os.write. rewrite Hf.
  destruct (String.eqb text "") eqn:Hempty; simpl.
  - apply String.eqb_eq in Hempty. subst. rewrite append_empty_r, Hf.
    destruct f. repeat split.
  - rewrite lookup_insert_eq. repeat split.
Qed.

(** Two writes in a row are one write of the two texts. *)
Lemma write_write filename a b w f :
  files w !! filename = Some f ->
  write_world filename b (write_world filename a w) = write_world filename (a ++ b) w.
Proof.
  intros Hf. unfold write_world, Os.write. rewrite Hf.
  destruct (String.eqb a "") eqn:Ha; simpl.
  - apply String.eqb_eq in Ha. subst. simpl. rewrite Hf. reflexivity.
  - rewrite lookup_insert_eq.
    destruct (String.eqb b "") eqn:Hb; simpl.
    + apply String.eqb_eq in Hb. subst. rewrite append_empty_r, Ha. reflexivity.
    + destruct (String.eqb (a ++ b) "") eqn:Hab.
      * apply String.eqb_eq, append_empty in Hab as [-> _]. discriminate.
      * simpl. unfold set_files. simpl.
        rewrite insert_insert_eq, append_assoc. reflexivity.
Qed.

Lemma write_lines_run filename leng lines : forall i w f,
  files w !! filename = Some f ->
  leng = i + Z.of_nat (length lines) ->
  write_lines filename leng i (map JStr lines) w
  = (Ok tt, write_world filename (String.concat newline lines) w).
Proof.
  induction lines as [|line rest IH]; intros i w f Hf Hleng.
  - simpl. unfold wret, write_world, Os.write. rewrite Hf. reflexivity.
  - change (map JStr (line :: rest)) with (JStr line :: map JStr rest).
    cbn [write_lines]. unfold wbind at 1.
    destruct (write_opened filename line w f Hf) as (-> & Hf1 & _).
    unfold wbind at 1.
    destruct rest as [|next rest].
    + assert (Hlast : (i <? leng - 1) = false).
      { apply Z.ltb_ge. simpl in Hleng. lia. }
      rewrite Hlast. reflexivity.
    + assert (Hmore : (i <? leng - 1) = true).
      { apply Z.ltb_lt. cbn [length] in Hleng. lia. }
      rewrite Hmore.
      destruct (write_opened filename newline _ _ Hf1) as (-> & Hf2 & _).
      rewrite (IH (i + 1) _ _ Hf2); [|cbn [length] in Hleng |- *; lia].
      rewrite (write_write filename newline _ _ _ Hf1).
      rewrite (write_write filename line _ _ _ Hf).
      reflexivity.
Qed.

(** Overwriting: the file holds the lines joined by newlines. *)
Lemma write_to_file_overwrite filename lines w :
  exists w',
    write_to_file filename (map JStr lines) false w
    = (Ok tt, logged ("Wrote to " ++ filename) w')
    /\ files w' !! filename = Some (File (String.concat newline lines) (clock w)).
Proof.
  unfold write_to_file. unfold wbind at 1. unfold Os.open_w at 1.
  set (w0 := set_files (<[filename := File "" (clock w)]> (files w)) w).
  assert (Hf : files w0 !! filename = Some (File "" (clock w))).
  { unfold w0. simpl. apply lookup_insert_eq. }
  unfold wbind at 1.
  rewrite (write_lines_run filename _ lines 0 w0 _ Hf);
    [|rewrite length_map; lia].
  exists (write_world filename (String.concat newline lines) w0).
  split; [reflexivity|].
  destruct (write_opened filename (String.concat newline lines) w0 _ Hf)
    as (_ & -> & _).
  simpl. destruct (String.eqb (String.concat newline lines) ""); reflexivity.
Qed.

(** Appending: the lines joined by newlines follow the old content at once. *)
Lemma write_to_file_append filename lines w f :
  files w !! filename = Some f ->
  exists w',
    write_to_file filename (map JStr lines) true w
    = (Ok tt, logged ("Wrote to " ++ filename) w')
    /\ files w' !! filename
       = Some (File (content f ++ String.concat newline lines)
                 (if String.eqb (String.concat newline lines) ""
                  then mtime f else clock w)).
Proof.
  intros Hf. unfold write_to_file. unfold wbind at 1. unfold Os.open_a at 1.
  rewrite Hf. unfold wbind at 1.
  rewrite (write_lines_run filename _ lines 0 w f Hf);
    [|rewrite length_map; lia].
  exists (write_world filename (String.concat newline lines) w).
  split; [reflexivity|].
  destruct (write_opened filename (String.concat newline lines) w f Hf)
    as (_ & -> & _).
  reflexivity.
Qed.

(** Every line but the last is followed by one newline, the last by nothing. *)
Lemma concat_newline_last front last :
  String.concat newline (front ++ [last])
  = fold_right (fun line rest => line ++ newline ++ rest) last front.
Proof.
  induction front as [|line front IH]; [reflexivity|].
  change ((line :: front) ++ [last])%list with (line :: (front ++ [last]))%list.
  cbn [fold_right]. rewrite <- IH.
  destruct front; reflexivity.
Qed.

(** C6: written without append, a sequence of strings with a last entry gives
    a file that holds every entry but the last followed by one newline, then
    the last entry and no newline after it: the entries joined by newlines.
    Writing ["a", "b", "c"] gives a, newline, b, newline, c. *)
Theorem write_to_file_joins_with_newlines :
  (forall filename front last w,
     fst (write_to_file filename (map JStr (front ++ [last])) false w) = Ok tt
     /\ files (snd (write_to_file filename (map JStr (front ++ [last])) false w))
          !! filename
        = Some (File (fold_right (fun line rest => line ++ newline ++ rest) last front)
                  (clock w))
     /\ fold_right (fun line rest => line ++ newline ++ rest) last front
        = String.concat newline (front ++ [last]))
  /\ (forall filename w,
        files (snd (write_to_file filename [JStr "a"; JStr "b"; JStr "c"] false w))
          !! filename
        = Some (File ("a" ++ newline ++ "b" ++ newline ++ "c") (clock w))).
Proof.
  split.
  - intros filename front last w.
    destruct (write_to_file_overwrite filename (front ++ [last]) w) as (w' & -> & Hf).
    rewrite <- concat_newline_last. simpl. repeat split. exact Hf.
  - intros filename w.
    destruct (write_to_file_overwrite filename ["a"; "b"; "c"] w) as (w' & Hrun & Hf).
    change [JStr "a"; JStr "b"; JStr "c"] with (map JStr ["a"; "b"; "c"]).
    rewrite Hrun. exact Hf.
Qed.

(** C7, as the specification has it, with a newline between c and d: the run
    on a first world does not give that file. *)
Lemma appended_line_is_not_on_its_own_line :
  written_then_appended "out.txt" Example.first_run
  <> Some ("a" ++ newline ++ "b" ++ newline ++ "c" ++ newline ++ "d").
Proof. vm_compute. discriminate. Qed.

(** C7, amended: after ["a", "b", "c"] is written without append, appending
    ["d"] gives a, newline, b, newline, c and then d at once: the first write
    left no newline after c, and the append adds none before d. *)
Theorem appended_line_follows_last_line filename w :
  written_then_appended filename w
  = Some ("a" ++ newline ++ "b" ++ newline ++ "cd").
Proof.
  unfold written_then_appended.
  destruct (write_to_file_overwrite filename ["a"; "b"; "c"] w) as (w1 & Hrun1 & Hf1).
  change [JStr "a"; JStr "b"; JStr "c"] with (map JStr ["a"; "b"; "c"]).
  rewrite Hrun1. cbn [snd].
  assert (Hf1' : files (logged ("Wrote to " ++ filename) w1) !! filename
                 = Some (File (String.concat newline ["a"; "b"; "c"]) (clock w)))
    by exact Hf1.
  destruct (write_to_file_append filename ["d"] _ _ Hf1') as (w2 & Hrun2 & Hf2).
  change [JStr "d"] with (map JStr ["d"]).
  rewrite Hrun2. cbn [snd].
  change (files (logged ("Wrote to " ++ filename) w2)) with (files w2).
  rewrite Hf2. reflexivity.
Qed.

(** ** What a rebuild stores *)

Section StoredPayload.

Context `{Platform}.

Lemma get_json_from_url_run url w raw data :
  network w (next_request url w) = Some raw ->
  json_loads raw = Some data ->
  get_json_from_url url w
  = (Ok data,
     logged ("Making request to " ++ next_request url w) (set_uuids (S (uuids w)) w)).
Proof.
  intros Hraw Hdata.
  unfold get_json_from_url, wbind, build_url, make_request, wbind, eprint,
    Urllib.urlopen_read, parse_json.
  fold (next_request url w). simpl. rewrite Hraw, Hdata. reflexivity.
Qed.

(** C8, amended: after a rebuild that fetched a payload, the cache file
    holds [json.dumps] of the parsed payload: the payload serialized again,
    not its text as it was received. *)
Theorem rebuilt_cache_holds_serialized_payload cache_file url w raw data :
  network w (next_request url w) = Some raw ->
  json_loads raw = Some data ->
  returned (build_cache cache_file (get_json_from_url url) w) = Ok data
  /\ producer_calls (build_cache cache_file (get_json_from_url url) w) = 1%nat
  /\ files (final (build_cache cache_file (get_json_from_url url) w)) !! cache_file
     = Some (File (json_dumps data) (clock w)).
Proof.
  intros Hraw Hdata. rewrite build_cache_run.
  rewrite (get_json_from_url_run url w raw data Hraw Hdata).
  repeat split. unfold final, stored. simpl. apply lookup_insert_eq.
Qed.

End StoredPayload.

Module StoredRuns.
Import Example.
#[local] Existing Instance python.

(** The region list of a first run. *)
Lemma first_run_stores_serialized_regions :
  returned (build_cache regions_cache (get_json_from_url (BASE_PATH ++ "/version"))
              first_run) = Ok regions_payload
  /\ producer_calls (build_cache regions_cache
                       (get_json_from_url (BASE_PATH ++ "/version")) first_run) = 1%nat
  /\ files (final (build_cache regions_cache
                     (get_json_from_url (BASE_PATH ++ "/version")) first_run))
       !! regions_cache
     = Some (File (json_dumps regions_payload) (clock first_run)).
Proof.
  apply (rebuilt_cache_holds_serialized_payload regions_cache
           (BASE_PATH ++ "/version") first_run (Json.dumps regions_payload)
           regions_payload).
  - vm_compute. reflexivity.
  - vm_compute. reflexivity.
Defined.

(** C8, as the specification has it: the server sends the region list
    without white space, the rebuild parses it, and the cache file is not
    the text that was sent. *)
Lemma rebuilt_cache_is_not_the_payload_text :
  network terse (next_request (BASE_PATH ++ "/version") terse) = Some terse_regions
  /\ returned (get_regions_data terse) = Ok (JArr [JObj [("instance", JStr "Worldwide")]])
  /\ producer_calls (get_regions_data terse) = 1%nat
  /\ content <$> files (final (get_regions_data terse)) !! regions_cache
     <> Some terse_regions.
Proof.
  split; [reflexivity|]. split; [vm_compute; reflexivity|].
  split; [vm_compute; reflexivity|]. vm_compute. discriminate.
Qed.

End StoredRuns.

(** ** The flag --ignorecache *)

Lemma parse_args_keeps_flags regions cl args :
  parse_args regions cl = Ok args ->
  arg_ignorecache args = arg_ignorecache cl.
Proof.
  unfold parse_args.
  destruct (existsb (String.eqb (lower (arg_region cl))) regions
            && existsb (String.eqb (lower (arg_item cl))) ["urls"; "ips"]);
    [|discriminate].
  intros Hargs. injection Hargs as <-. reflexivity.
Qed.

Section IgnoreCache.

Context `{Platform}.

(** With the flag set, the endpoint accessor rebuilds whatever the cache
    holds. *)
Lemma get_endpoint_data_forced region w :
  get_endpoint_data region true w =
  match get_endpoint_data_operation region (logged "Ignoring cache" w) with
  | (Ok data, w') => (Ok data, stored (cache_path (region ++ ".cache")) data w', 1%nat)
  | (Raise e, w') => (Raise e, w', 1%nat)
  end.
Proof.
  unfold get_endpoint_data. apply use_cache_rebuild. left. reflexivity.
Qed.

Lemma main_with_regions_forced cl regions w :
  arg_ignorecache cl = true ->
  producer_calls (main_with_regions cl regions w)
  = match (names <- lower_all regions ;; parse_args names cl)%py with
    | Ok _ => 1%nat
    | Raise _ => 0%nat
    end.
Proof.
  intros Hflag. unfold main_with_regions, mbind at 1, lift at 1, wpure at 1.
  destruct (lower_all regions) as [names|e]; [|reflexivity]. simpl rbind.
  unfold mbind at 1, lift at 1, wpure at 1.
  destruct (parse_args names cl) as [args|e] eqn:Hargs; [|reflexivity].
  rewrite <- (parse_args_keeps_flags _ _ _ Hargs) in Hflag.
  unfold mbind at 1, get_items, mbind at 1. rewrite Hflag, get_endpoint_data_forced.
  destruct (get_endpoint_data_operation (arg_region args) (logged "Ignoring cache" w))
    as [[data|e] w']; [|reflexivity].
  unfold lift at 1, wpure at 1.
  destruct (get_items_of data (arg_item args) (arg_required args)) as [items|e];
    [|reflexivity].
  destruct (arg_outfile args) as [filename|];
    [destruct (String.eqb filename "")|]; unfold lift.
  - destruct (print_all items _) as [r w'']. reflexivity.
  - destruct (write_to_file filename items _ _) as [r w'']. reflexivity.
  - destruct (print_all items _) as [r w'']. reflexivity.
Qed.

(** C9: for every command line, [main] reads the region list with
    [use_cache("regions.cache", ..., False)], so also under --ignorecache: a
    fresh valid [regions.cache] is used, its producer is not called, and the
    run goes on from there.  The flag reaches the endpoint accessor only,
    which then rebuilds [<region>.cache] whatever it holds; the one producer
    call of such a run is that rebuild. *)
Theorem ignorecache_forces_endpoint_cache_only :
  (forall cl w,
     main cl w
     = (regions_data <- use_cache "regions.cache" get_regions_data_operation false ;;
        regions <- lift (wpure (region_names regions_data)) ;;
        main_with_regions cl regions)%m w)
  /\ (forall cl w f regions_data,
        files w !! cache_path "regions.cache" = Some f ->
        clock w - mtime f < 3600 ->
        json_loads (content f) = Some regions_data ->
        get_regions_data w
        = (Ok regions_data,
           logged ("Using cache " ++ Os.basename (cache_path "regions.cache")) w,
           0%nat)
        /\ main cl w
           = (regions <- lift (wpure (region_names regions_data)) ;;
              main_with_regions cl regions)%m
               (logged ("Using cache " ++ Os.basename (cache_path "regions.cache")) w)
        /\ (arg_ignorecache cl = true ->
            producer_calls (main cl w)
            = match arguments regions_data cl with
              | Ok _ => 1%nat
              | Raise _ => 0%nat
              end))
  /\ (forall region w,
        get_endpoint_data region true w =
        match get_endpoint_data_operation region (logged "Ignoring cache" w) with
        | (Ok data, w') =>
            (Ok data, stored (cache_path (region ++ ".cache")) data w', 1%nat)
        | (Raise e, w') => (Raise e, w', 1%nat)
        end).
Proof.
  split; [|split].
  - intros cl w. unfold main, get_regions_list, get_regions_data, mbind.
    destruct (use_cache "regions.cache" get_regions_data_operation false w)
      as [[[regions_data|e] w1] n]; [|reflexivity].
    unfold lift, wpure.
    destruct (region_names regions_data) as [regions|e]; [|reflexivity].
    destruct (main_with_regions cl regions w1) as [[r w2] m].
    rewrite Nat.add_0_r. reflexivity.
  - intros cl w f regions_data Hf Hage Hgood.
    assert (Hregions : get_regions_data w
              = (Ok regions_data,
                 logged ("Using cache " ++ Os.basename (cache_path "regions.cache")) w,
                 0%nat)).
    { unfold get_regions_data.
      apply (use_cache_hit "regions.cache" _ w f regions_data);
        [split; assumption | assumption]. }
    assert (Hmain : main cl w
              = (regions <- lift (wpure (region_names regions_data)) ;;
                 main_with_regions cl regions)%m
                  (logged ("Using cache " ++ Os.basename (cache_path "regions.cache"))
                     w)).
    { unfold main, get_regions_list. unfold mbind at 1 2. rewrite Hregions.
      unfold mbind, lift, wpure.
      destruct (region_names regions_data) as [regions|e]; [|reflexivity].
      destruct (main_with_regions cl regions _) as [[r w'] n]. reflexivity. }
    split; [exact Hregions|]. split; [exact Hmain|].
    intros Hflag. rewrite Hmain. unfold arguments, mbind, lift, wpure.
    destruct (region_names regions_data) as [regions|e]; [|reflexivity].
    simpl rbind.
    rewrite <- (main_with_regions_forced cl regions
                  (logged ("Using cache " ++ Os.basename (cache_path "regions.cache")) w)
                  Hflag).
    destruct (main_with_regions cl regions _) as [[r w'] n]. reflexivity.
  - intros region w. apply get_endpoint_data_forced.
Qed.

End IgnoreCache.

Module IgnoreCacheRuns.
Import Example.
#[local] Existing Instance python.

(** Both caches are warm and --ignorecache is given: the region list is read
    from its cache and the one producer call fetches the endpoints. *)
Lemma warm_run_with_ignorecache :
  get_regions_data warm
  = (Ok regions_payload,
     logged ("Using cache " ++ Os.basename (cache_path "regions.cache")) warm, 0%nat)
  /\ producer_calls
       (main (CommandLine "WorldWide" "urls" false true None false) warm) = 1%nat
  /\ producer_calls (get_endpoint_data "worldwide" true warm) = 1%nat.
Proof.
  destruct ignorecache_forces_endpoint_cache_only as (_ & Hregions & Hendpoint).
  destruct (Hregions (CommandLine "WorldWide" "urls" false true None false) warm
              (File (Json.dumps regions_payload) 1700000000) regions_payload)
    as (Hused & _ & Hcalls).
  - vm_compute. reflexivity.
  - vm_compute. reflexivity.
  - vm_compute. reflexivity.
  - split; [exact Hused|]. split.
    + rewrite (Hcalls eq_refl). reflexivity.
    + rewrite (Hendpoint "worldwide" warm). reflexivity.
Defined.

End IgnoreCacheRuns.

(** * Further properties *)

(** ** The request URL *)

Lemma quote_plus_unreserved s :
  unreserved_string s = true -> Urllib.quote_plus s = s.
Proof.
  unfold unreserved_string. induction s as [|c s IH]; [reflexivity|].
  cbn [list_ascii_of_string forallb Urllib.quote_plus].
  intros Hs. apply andb_true_iff in Hs as [Hc Hs].
  destruct (Nat.eqb_spec (nat_of_ascii c) 32) as [Hspace|_].
  - rewrite Hspace in Hc. discriminate.
  - rewrite Hc, (IH Hs). reflexivity.
Qed.

Section BuildUrl.

Context `{Platform}.

(** X3: for a UUID made of letters, digits and hyphens, [build_url] returns
    [url?clientrequestid=<uuid>&format=json] with the UUID as it is, and the
    next call draws the next UUID. *)
Theorem build_url_of_uuid url w :
  unreserved_string (uuid4 (uuids w)) = true ->
  fst (build_url url w)
  = Ok (url ++ "?clientrequestid=" ++ uuid4 (uuids w) ++ "&format=json")
  /\ uuids (snd (build_url url w)) = S (uuids w)
  /\ forall url', next_request url' (snd (build_url url w))
                  = url' ++ "?" ++ Urllib.urlencode
                                     [("clientrequestid", uuid4 (S (uuids w)));
                                      ("format", "json")].
Proof.
  intros Hid. unfold build_url. cbn [fst snd]. split; [|split; reflexivity].
  unfold Urllib.urlencode. cbn [map fst snd String.concat].
  rewrite (quote_plus_unreserved _ Hid).
  change (Urllib.quote_plus "clientrequestid") with "clientrequestid".
  change (Urllib.quote_plus "format") with "format".
  change (Urllib.quote_plus "json") with "json".
  rewrite !append_assoc. reflexivity.
Qed.

End BuildUrl.

(** ** The cache: failures and reuse *)

Section CacheMore.

Context `{Platform}.


(** X5: what a rebuild has stored is served by the calls of the next 3600
    seconds without calling their producer, provided [json.loads] reads back
    what [json.dumps] wrote; from 3600 seconds on the entry is rebuilt. *)
Theorem use_cache_serves_stored_entry
    cache_file_name operation ignorecache w data w' operation' dt :
  ignorecache = true \/ missing_or_stale (cache_path cache_file_name) w ->
  operation (logged "Ignoring cache" w) = (Ok data, w') ->
  json_loads (json_dumps data) = Some data ->
  (dt < 3600 ->
   use_cache cache_file_name operation' false
     (later dt (final (use_cache cache_file_name operation ignorecache w)))
   = (Ok data,
      logged ("Using cache " ++ Os.basename (cache_path cache_file_name))
        (later dt (final (use_cache cache_file_name operation ignorecache w))),
      0%nat))
  /\ (3600 <= dt ->
      producer_calls
        (use_cache cache_file_name operation' false
           (later dt (final (use_cache cache_file_name operation ignorecache w))))
      = 1%nat).
Proof.
  intros Hwhy Hop Hround.
  rewrite (use_cache_rebuild _ _ _ _ Hwhy), Hop. unfold final. cbn [fst snd].
  assert (Hfile : files (later dt (stored (cache_path cache_file_name) data w'))
                    !! cache_path cache_file_name
                  = Some (File (json_dumps data) (clock w'))).
  { unfold later, stored. simpl. apply lookup_insert_eq. }
  assert (Hclock : clock (later dt (stored (cache_path cache_file_name) data w'))
                   = clock w' + dt).
  { unfold later, stored, with_folder. simpl.
    destruct (folder_exists w'); reflexivity. }
  split.
  - intros Hdt.
    apply (use_cache_hit _ _ _ (File (json_dumps data) (clock w')) data);
      [|exact Hround].
    split; [exact Hfile|]. rewrite Hclock. simpl. lia.
  - intros Hdt.
    rewrite (use_cache_rebuild cache_file_name operation' false).
    + destruct (operation' _) as [[data'|e] w'']; reflexivity.
    + right. right. exists (File (json_dumps data) (clock w')).
      split; [exact Hfile|]. rewrite Hclock. simpl. lia.
Qed.

End CacheMore.

Module CacheMoreRuns.
Import Example MoreExamples.
#[local] Existing Instance python.

(** The first UUID of the example platform. *)
Lemma first_run_builds_url :
  fst (build_url (BASE_PATH ++ "/version") first_run)
  = Ok (BASE_PATH ++ "/version" ++ "?clientrequestid="
        ++ "6f1c2d3e-4a5b-4c6d-8e7f-000000000000" ++ "&format=json").
Proof.
  destruct (build_url_of_uuid (BASE_PATH ++ "/version") first_run) as [Hurl _].
  - vm_compute. reflexivity.
  - rewrite Hurl. vm_compute. reflexivity.
Defined.


(** The region list fetched on a first run is served half an hour later. *)
Lemma first_run_entry_is_served :
  use_cache "regions.cache" (constant JNull) false
    (later 1800 (final (use_cache "regions.cache" get_regions_data_operation false
                          first_run)))
  = (Ok regions_payload,
     logged ("Using cache " ++ Os.basename (cache_path "regions.cache"))
       (later 1800 (final (use_cache "regions.cache" get_regions_data_operation false
                             first_run))),
     0%nat).
Proof.
  destruct (use_cache_serves_stored_entry "regions.cache" get_regions_data_operation
              false first_run regions_payload
              (snd (get_regions_data_operation (logged "Ignoring cache" first_run)))
              (constant JNull) 1800) as [Hserved _].
  - right. left. reflexivity.
  - vm_compute. reflexivity.
  - vm_compute. reflexivity.
  - apply Hserved. lia.
Defined.

End CacheMoreRuns.

(** ** Paths *)

Lemma length_append (a b : string) :
  String.length (a ++ b) = (String.length a + String.length b)%nat.
Proof.
  induction a as [|c a IH]; [reflexivity|].
  rewrite append_cons. cbn [String.length]. rewrite IH. reflexivity.
Qed.

Lemma append_cancel_r (c : string) : forall a b, a ++ c = b ++ c -> a = b.
Proof.
  induction a as [|x a IH]; intros [|y b] Heq.
  - reflexivity.
  - apply (f_equal String.length) in Heq. rewrite !length_append in Heq.
    cbn [String.length] in Heq. lia.
  - apply (f_equal String.length) in Heq. rewrite !length_append in Heq.
    cbn [String.length] in Heq. lia.
  - rewrite !append_cons in Heq. injection Heq as -> Heq.
    rewrite (IH b Heq). reflexivity.
Qed.

Lemma prefix_slash_append (r t : string) :
  String.prefix "/" t = false -> String.prefix "/" (r ++ t) = String.prefix "/" r.
Proof.
  destruct r as [|c r]; [intros Ht; exact Ht|]. intros _.
  rewrite append_cons. cbn [String.prefix].
  destruct (ascii_dec "/" c); [|reflexivity].
  destruct (r ++ t), r; reflexivity.
Qed.

(** A name that does not start with a slash is put behind the folder. *)
Lemma join_relative (a : string) :
  exists front, forall b, String.prefix "/" b = false -> Os.join a b = front ++ b.
Proof.
  unfold Os.join.
  destruct (String.eqb a "") eqn:Hempty.
  - exists "". intros b ->. reflexivity.
  - destruct (String.eqb (String.substring (String.length a - 1) 1 a) "/").
    + exists a. intros b ->. reflexivity.
    + exists (a ++ "/"). intros b ->. rewrite append_assoc. reflexivity.
Qed.

Lemma slash_free_prefix (name : string) :
  slash_free name = true -> String.prefix "/" name = false.
Proof.
  unfold slash_free. destruct name as [|c name]; [reflexivity|].
  cbn [list_ascii_of_string existsb String.prefix]. intros Hfree.
  apply negb_true_iff, orb_false_iff in Hfree as [Hc _].
  destruct (ascii_dec "/" c) as [<-|_]; [discriminate | reflexivity].
Qed.

Lemma basename_slash_free (name : string) :
  slash_free name = true -> Os.basename name = name.
Proof.
  unfold slash_free. destruct name as [|c name]; [reflexivity|].
  cbn [list_ascii_of_string existsb Os.basename]. intros Hfree.
  apply negb_true_iff, orb_false_iff in Hfree as [Hc Hrest].
  rewrite Hrest. rewrite Ascii.eqb_sym in Hc. rewrite Hc. reflexivity.
Qed.

Lemma slash_in_append (p t : string) :
  existsb (Ascii.eqb "/"%char) (list_ascii_of_string (p ++ String "/" t)) = true.
Proof.
  induction p as [|c p IH].
  - cbn. reflexivity.
  - rewrite append_cons. cbn [list_ascii_of_string existsb]. rewrite IH.
    apply orb_true_r.
Qed.

Lemma basename_after_slash (name : string) :
  slash_free name = true ->
  forall p, Os.basename (p ++ String "/" name) = name.
Proof.
  intros Hfree. induction p as [|c p IH].
  - change ("" ++ String "/" name) with (String "/" name).
    cbn [Os.basename]. unfold slash_free in Hfree.
    apply negb_true_iff in Hfree. rewrite Hfree. reflexivity.
  - rewrite append_cons. cbn [Os.basename].
    rewrite slash_in_append. exact IH.
Qed.

Lemma ends_with_slash (a : string) :
  String.eqb a "" = false ->
  String.eqb (String.substring (String.length a - 1) 1 a) "/" = true ->
  exists front, a = front ++ "/".
Proof.
  induction a as [|c a IH]; [discriminate|]. intros _ Hlast.
  destruct a as [|d a].
  - cbn in Hlast. destruct (Ascii.eqb_spec c "/") as [->|]; [|discriminate].
    exists "". reflexivity.
  - destruct IH as [front Hfront]; [reflexivity | | ].
    + cbn [String.length Nat.sub] in Hlast |- *.
      rewrite Nat.sub_0_r in *. exact Hlast.
    + exists (String c front). rewrite append_cons, <- Hfront. reflexivity.
Qed.

Lemma basename_join (folder name : string) :
  slash_free name = true -> Os.basename (Os.join folder name) = name.
Proof.
  intros Hfree. unfold Os.join. rewrite (slash_free_prefix _ Hfree).
  destruct (String.eqb folder "") eqn:Hempty; [apply basename_slash_free, Hfree|].
  destruct (String.eqb (String.substring (String.length folder - 1) 1 folder) "/")
    eqn:Hlast.
  - destruct (ends_with_slash folder Hempty Hlast) as [front ->].
    rewrite append_assoc. apply basename_after_slash, Hfree.
  - apply basename_after_slash, Hfree.
Qed.

Section CacheFiles.

Context `{Platform}.

(** X6: for a key without a slash the diagnostic of a cache hit names the key:
    the basename of the cache path is the key, whatever the folder. *)
Theorem use_cache_hit_names_the_key cache_file_name operation w f data :
  slash_free cache_file_name = true ->
  files w !! cache_path cache_file_name = Some f ->
  clock w - mtime f < 3600 ->
  json_loads (content f) = Some data ->
  Os.basename (cache_path cache_file_name) = cache_file_name
  /\ stderr (final (use_cache cache_file_name operation false w))
     = (stderr w ++ [("Using cache " ++ cache_file_name)%string])%list.
Proof.
  intros Hfree Hf Hage Hgood.
  assert (Hname : Os.basename (cache_path cache_file_name) = cache_file_name)
    by (apply basename_join, Hfree).
  split; [exact Hname|].
  rewrite (use_cache_hit cache_file_name operation w f data);
    [| split; assumption | assumption].
  rewrite Hname. reflexivity.
Qed.

Lemma stored_other_file cache_file data w p :
  p <> cache_file -> files (stored cache_file data w) !! p = files w !! p.
Proof.
  intros Hp. unfold stored, with_folder. simpl.
  rewrite lookup_insert_ne; [|congruence].
  destruct (folder_exists w); reflexivity.
Qed.

Lemma use_cache_other_files cache_file_name operation ignorecache w p :
  (forall w0, files (snd (operation w0)) = files w0) ->
  p <> cache_path cache_file_name ->
  files (final (use_cache cache_file_name operation ignorecache w)) !! p
  = files w !! p.
Proof.
  intros Hop Hp.
  assert (Hbuild : forall line,
            files (final (build_cache (cache_path cache_file_name) operation
                            (logged line w))) !! p = files w !! p).
  { intros line. rewrite build_cache_run.
    specialize (Hop (logged line w)).
    destruct (operation (logged line w)) as [[data|e] w']; simpl in Hop;
      unfold final; cbn [fst snd].
    - rewrite (stored_other_file _ _ _ _ Hp), Hop. reflexivity.
    - rewrite Hop. reflexivity. }
  unfold use_cache. fold (cache_path cache_file_name).
  unfold mbind at 1, lift at 1.
  destruct (cache_avail_pure (cache_path cache_file_name) w) as [b ->].
  destruct (b && negb ignorecache).
  - unfold except_JSONDecodeError, mbind at 1, lift at 1, load_cache, wbind, Os.read.
    destruct (files w !! cache_path cache_file_name) as [f|]; [|reflexivity].
    unfold parse_json. destruct (json_loads (content f)) as [data|].
    + reflexivity.
    + unfold wraise. destruct (json_error (content f)); try reflexivity.
      unfold mbind at 1, lift at 1, eprint at 1.
      fold (logged "Cache corrupted" w).
      specialize (Hbuild "Cache corrupted").
      destruct (build_cache (cache_path cache_file_name) operation
                  (logged "Cache corrupted" w)) as [[r w'] n].
      exact Hbuild.
  - unfold mbind at 1, lift at 1, eprint at 1. fold (logged "Ignoring cache" w).
    specialize (Hbuild "Ignoring cache").
    destruct (build_cache (cache_path cache_file_name) operation
                (logged "Ignoring cache" w)) as [[r w'] n].
    exact Hbuild.
Qed.

(** X7: [use_cache] writes no file but its own: with a producer that leaves the
    files alone, every other path holds after the call what it held before,
    whether the cache was used, rebuilt, or the producer raised. *)
Theorem use_cache_writes_own_file_only cache_file_name operation ignorecache w :
  (forall w0, files (snd (operation w0)) = files w0) ->
  forall p, p <> cache_path cache_file_name ->
  files (final (use_cache cache_file_name operation ignorecache w)) !! p
  = files w !! p.
Proof.
  intros Hop p Hp. apply use_cache_other_files; assumption.
Qed.

Lemma get_json_from_url_keeps_files url w :
  files (snd (get_json_from_url url w)) = files w.
Proof.
  unfold get_json_from_url, wbind, build_url, make_request, wbind, eprint,
    Urllib.urlopen_read, parse_json. simpl.
  destruct (network w _) as [body|]; [|reflexivity].
  destruct (json_loads body); reflexivity.
Qed.

Lemma region_cache_paths_differ region region' :
  String.prefix "/" region = false ->
  String.prefix "/" region' = false ->
  region <> region' ->
  cache_path (region ++ ".cache") <> cache_path (region' ++ ".cache").
Proof.
  intros Hr Hr' Hne Heq. apply Hne. unfold cache_path in Heq.
  destruct (join_relative CACHE_FOLDER) as [front Hjoin].
  rewrite !Hjoin in Heq by (rewrite prefix_slash_append; [assumption | reflexivity]).
  apply String.app_inj in Heq. exact (append_cancel_r ".cache" _ _ Heq).
Qed.

(** X8: each region has a cache file of its own, as long as region names
    hold no slash (so that a name is a file name in the cache folder and not
    a path): fetching or rebuilding the endpoints of one region leaves the
    cache file of every other region as it is, and the region list too
    unless the region is called "regions". *)
Theorem get_endpoint_data_keeps_other_regions region region' ignorecache w :
  slash_free region = true ->
  slash_free region' = true ->
  region <> region' ->
  files (final (get_endpoint_data region ignorecache w))
    !! cache_path (region' ++ ".cache")
  = files w !! cache_path (region' ++ ".cache")
  /\ (region <> "regions" ->
      files (final (get_endpoint_data region ignorecache w))
        !! cache_path "regions.cache"
      = files w !! cache_path "regions.cache").
Proof.
  intros Hr Hr' Hne.
  apply slash_free_prefix in Hr. apply slash_free_prefix in Hr'. split.
  - unfold get_endpoint_data. apply use_cache_other_files.
    + intros w0. apply get_json_from_url_keeps_files.
    + apply not_eq_sym, region_cache_paths_differ; assumption.
  - intros Hregions. unfold get_endpoint_data. apply use_cache_other_files.
    + intros w0. apply get_json_from_url_keeps_files.
    + change "regions.cache" with ("regions" ++ ".cache").
      apply not_eq_sym, region_cache_paths_differ; [assumption | reflexivity | assumption].
Qed.

End CacheFiles.

Module CacheFilesRuns.
Import Example MoreExamples.
#[local] Existing Instance python.

Lemma warm_hit_names_regions_cache :
  Os.basename (cache_path "regions.cache") = "regions.cache"
  /\ stderr (final (use_cache "regions.cache" get_regions_data_operation false warm))
     = ["Using cache regions.cache"].
Proof.
  apply (use_cache_hit_names_the_key "regions.cache" get_regions_data_operation warm
           (File (Json.dumps regions_payload) 1700000000) regions_payload).
  - reflexivity.
  - vm_compute. reflexivity.
  - vm_compute. reflexivity.
  - vm_compute. reflexivity.
Defined.

(** Rebuilding the region list leaves the endpoint cache alone. *)
Lemma forced_region_rebuild_keeps_worldwide_cache :
  files (final (use_cache "regions.cache" (constant regions_payload) true warm))
    !! worldwide_cache
  = files warm !! worldwide_cache.
Proof.
  apply (use_cache_writes_own_file_only "regions.cache" (constant regions_payload)
           true warm).
  - intros w0. reflexivity.
  - vm_compute. discriminate.
Defined.

(** Fetching the endpoints of usgovdod leaves those of worldwide alone. *)
Lemma usgovdod_fetch_keeps_worldwide_cache :
  files (final (get_endpoint_data "usgovdod" false warm))
    !! cache_path ("worldwide" ++ ".cache")
  = files warm !! cache_path ("worldwide" ++ ".cache").
Proof.
  destruct (get_endpoint_data_keeps_other_regions "usgovdod" "worldwide" false warm)
    as [Hkept _].
  - reflexivity.
  - reflexivity.
  - discriminate.
  - exact Hkept.
Defined.

End CacheFilesRuns.

(** ** The region list *)

Lemma instances_spec l : forall names,
  instances l = Ok names
  <-> Forall2 (fun region name => Py.getitem region "instance" = Ok name) l names.
Proof.
  induction l as [|region l IH]; intros names; simpl.
  - split.
    + intros Hnames. injection Hnames as <-. constructor.
    + intros Hall. inversion Hall. reflexivity.
  - split.
    + destruct (Py.getitem region "instance") as [name|e] eqn:Hname; simpl;
        [|discriminate].
      destruct (instances l) as [rest|e] eqn:Hrest; simpl; [|discriminate].
      intros Hnames. injection Hnames as <-.
      constructor; [exact Hname | apply IH; reflexivity].
    + intros Hall. inversion Hall as [|? name ? rest Hname Hrest]; subst.
      rewrite Hname. simpl. apply IH in Hrest. rewrite Hrest. reflexivity.
Qed.

(** X9: the region names are the ["instance"] entries of the elements, one for
    one and in their order, without sorting or deduplicating; the first
    element without the entry raises what its lookup raises ([KeyError] for
    an object, [TypeError] otherwise), and data that cannot be iterated
    raises [TypeError]. *)
Theorem region_names_in_order :
  (forall l names,
     region_names (JArr l) = Ok names
     <-> Forall2 (fun region name => Py.getitem region "instance" = Ok name) l names)
  /\ (forall good names bad rest e,
        Forall2 (fun region name => Py.getitem region "instance" = Ok name)
          good names ->
        Py.getitem bad "instance" = Raise e ->
        region_names (JArr (good ++ bad :: rest)) = Raise e)
  /\ (forall kvs, Py.getitem (JObj kvs) "instance" = Raise (KeyError "instance")
                  <-> Py.has_key "instance" kvs = false)
  /\ region_names JNull = Raise TypeError.
Proof.
  split; [|split; [|split]].
  - intros l names. unfold region_names. simpl. apply instances_spec.
  - intros good names bad rest e Hgood Hbad. unfold region_names. simpl.
    induction Hgood as [|region name good names Hname Hgood IH]; simpl.
    + rewrite Hbad. reflexivity.
    + rewrite Hname. simpl. rewrite IH. reflexivity.
  - intros kvs. unfold Py.getitem, Py.has_key.
    destruct (Py.assoc "instance" kvs); split; congruence.
  - reflexivity.
Qed.

(** X23: region data that is no list.  [None], a [bool] and an [int] cannot
    be iterated: [TypeError].  An object is iterated over its keys and a
    [str] over its characters, and indexing the first of them with
    ["instance"] raises [TypeError]; only the empty object and the empty
    [str] give a region list, the empty one. *)
Theorem region_names_of_other_data :
  region_names JNull = Raise TypeError
  /\ (forall b, region_names (JBool b) = Raise TypeError)
  /\ (forall n, region_names (JInt n) = Raise TypeError)
  /\ (forall kvs, region_names (JObj kvs)
                  = match kvs with [] => Ok [] | _ :: _ => Raise TypeError end)
  /\ (forall s, region_names (JStr s)
                = match s with EmptyString => Ok [] | String _ _ => Raise TypeError end).
Proof.
  split; [reflexivity|]. split; [reflexivity|]. split; [reflexivity|]. split.
  - intros [|[k x] kvs]; reflexivity.
  - intros [|c s]; reflexivity.
Qed.

(** The region list of the example. *)
Lemma example_region_names :
  region_names Example.regions_payload = Ok [JStr "Worldwide"; JStr "USGovDoD"]
  /\ region_names (JArr [JObj [("instance", JStr "Worldwide")];
                         JObj [("latest", JStr "2024010100")];
                         JObj [("instance", JStr "USGovDoD")]])
     = Raise (KeyError "instance").
Proof.
  split.
  - apply (proj1 region_names_in_order). repeat constructor.
  - apply (proj1 (proj2 region_names_in_order)
             [JObj [("instance", JStr "Worldwide")]] [JStr "Worldwide"]
             (JObj [("latest", JStr "2024010100")])
             [JObj [("instance", JStr "USGovDoD")]]).
    + repeat constructor.
    + reflexivity.
Defined.

(** ** More on the item extractor *)

Lemma get_items_of_strings services item required :
  Forall (fun service => is_descriptor is_str item service = true) services ->
  get_items_of (JArr services) item required
  = Ok (map JStr
          (StrList.unique
             (StrList.sort
                (strings_of
                   (List.flat_map (field_values item)
                      (List.filter (included item required) services)))))).
Proof.
  intros Hall. unfold get_items_of.
  rewrite (get_items_accumulator_descriptors is_str item required services Hall).
  simpl.
  rewrite (strings_of_all_str _ (accumulated_all_str item required services Hall)) at 1.
  apply StrListFacts.py_sort_unique.
Qed.

Lemma strictly_ascending_ext l1 : forall l2,
  StrList.strictly_ascending l1 -> StrList.strictly_ascending l2 ->
  (forall x, In x l1 <-> In x l2) -> l1 = l2.
Proof.
  unfold StrList.strictly_ascending.
  induction l1 as [|x1 l1 IH]; intros [|x2 l2] H1 H2 Hsame.
  - reflexivity.
  - exfalso. apply (Hsame x2). left. reflexivity.
  - exfalso. apply (Hsame x1). left. reflexivity.
  - inversion H1 as [|? ? H1' Hx1]; subst. inversion H2 as [|? ? H2' Hx2]; subst.
    rewrite List.Forall_forall in Hx1, Hx2.
    assert (Heq : x1 = x2).
    { destruct (proj1 (Hsame x1) (or_introl eq_refl)) as [Heq|Hin1]; [congruence|].
      destruct (proj2 (Hsame x2) (or_introl eq_refl)) as [Heq|Hin2]; [congruence|].
      exfalso. apply (StrOrderFacts.lt_irrefl x1).
      apply (StrOrderFacts.lt_trans _ x2); [apply Hx1, Hin2 | apply Hx2, Hin1]. }
    subst x2. f_equal. apply IH; [assumption | assumption |].
    intros x. split; intros Hin.
    + destruct (proj1 (Hsame x) (or_intror Hin)) as [<-|Hin']; [|exact Hin'].
      exfalso. exact (StrOrderFacts.lt_irrefl _ (Hx1 _ Hin)).
    + destruct (proj2 (Hsame x) (or_intror Hin)) as [<-|Hin']; [|exact Hin'].
      exfalso. exact (StrOrderFacts.lt_irrefl _ (Hx2 _ Hin)).
Qed.

Lemma In_accumulated v item required services :
  In v (List.flat_map (field_values item)
          (List.filter (included item required) services))
  <-> exists service, In service services
                     /\ included item required service = true
                     /\ In v (field_values item service).
Proof.
  rewrite List.in_flat_map. split.
  - intros (service & Hin & Hv). apply List.filter_In in Hin as [Hin Hinc]. eauto.
  - intros (service & Hin & Hinc & Hv). exists service.
    split; [apply List.filter_In; split; assumption | exact Hv].
Qed.

Lemma In_extracted s item required services :
  In s (StrList.unique
          (StrList.sort
             (strings_of
                (List.flat_map (field_values item)
                   (List.filter (included item required) services)))))
  <-> exists service, In service services
                     /\ included item required service = true
                     /\ In (JStr s) (field_values item service).
Proof.
  rewrite (proj2 (StrListFacts.unique_sort_spec _)), In_strings_of.
  apply In_accumulated.
Qed.

(** X10: asking for required items only never adds an item: every item of the
    required-only list is in the full list. *)
Theorem get_items_required_is_part_of_all services item :
  Forall (fun service => is_descriptor is_str item service = true) services ->
  exists some all : list string,
    get_items_of (JArr services) item true = Ok (map JStr some)
    /\ get_items_of (JArr services) item false = Ok (map JStr all)
    /\ (forall s, In s some -> In s all)
    /\ (length some <= length all)%nat.
Proof.
  intros Hall.
  rewrite !(get_items_of_strings services item _ Hall).
  eexists. eexists. split; [reflexivity|]. split; [reflexivity|].
  assert (Hpart : forall s,
            In s (StrList.unique (StrList.sort (strings_of
                    (List.flat_map (field_values item)
                       (List.filter (included item true) services))))) ->
            In s (StrList.unique (StrList.sort (strings_of
                    (List.flat_map (field_values item)
                       (List.filter (included item false) services)))))).
  { intros s. rewrite !In_extracted.
    intros (service & Hin & Hinc & Hv). exists service.
    split; [exact Hin|]. split; [|exact Hv].
    unfold included in *. apply andb_true_iff in Hinc as [Hfield _].
    rewrite Hfield. reflexivity. }
  split; [exact Hpart|].
  apply List.NoDup_incl_length; [|exact Hpart].
  apply StrListFacts.strictly_ascending_NoDup, StrListFacts.unique_sort_spec.
Qed.

(** X11: the order of the descriptors does not matter: a permutation of the
    descriptors gives the same list. *)
Theorem get_items_ignores_descriptor_order services services' item required :
  Forall (fun service => is_descriptor is_str item service = true) services ->
  Permutation services services' ->
  get_items_of (JArr services') item required
  = get_items_of (JArr services) item required.
Proof.
  intros Hall Hperm.
  assert (Hall' : Forall (fun service => is_descriptor is_str item service = true)
                    services').
  { rewrite List.Forall_forall in Hall |- *. intros service Hin.
    apply Hall. apply (Permutation_in _ (Permutation_sym Hperm)), Hin. }
  rewrite (get_items_of_strings services item required Hall),
    (get_items_of_strings services' item required Hall').
  do 2 f_equal. apply strictly_ascending_ext.
  - apply StrListFacts.unique_sort_spec.
  - apply StrListFacts.unique_sort_spec.
  - intros s. rewrite !In_extracted. split; intros (service & Hin & Hrest);
      exists service; (split; [|exact Hrest]).
    + apply (Permutation_in _ (Permutation_sym Hperm)), Hin.
    + apply (Permutation_in _ Hperm), Hin.
Qed.

Lemma get_items_loop_absent item required services : forall items,
  Forall (fun service => Py.contains item service = Ok false) services ->
  get_items_loop item required items services = Ok items.
Proof.
  induction services as [|service rest IH]; simpl; intros items Hall;
    [reflexivity|].
  inversion Hall as [|? ? Hservice Hrest]; subst.
  unfold get_items_step. rewrite Hservice. simpl. apply IH, Hrest.
Qed.

(** X12: elements that do not hold the wanted field are passed over without a
    look at ["required"]: when no element holds it the list is empty, also
    for no element at all and for objects without ["required"].  Data that
    cannot be iterated raises [TypeError]. *)
Theorem get_items_without_the_field :
  (forall services item required,
     Forall (fun service => Py.contains item service = Ok false) services ->
     get_items_of (JArr services) item required = Ok [])
  /\ (forall kvs item, Py.contains item (JObj kvs) = Ok false
                       <-> Py.has_key item kvs = false)
  /\ (forall data item required,
        Py.iter data = Raise TypeError ->
        get_items_of data item required = Raise TypeError)
  /\ (forall data, Py.iter data = Raise TypeError
                   <-> data = JNull \/ (exists b, data = JBool b)
                       \/ (exists n, data = JInt n)).
Proof.
  split; [|split; [|split]].
  - intros services item required Hall.
    unfold get_items_of, get_items_accumulator. simpl.
    rewrite (get_items_loop_absent item required services [] Hall). reflexivity.
  - intros kvs item. simpl. split; congruence.
  - intros data item required Hiter.
    unfold get_items_of, get_items_accumulator. rewrite Hiter. reflexivity.
  - intros data. destruct data; simpl; split; try discriminate; eauto;
      intros [Hd|[[? Hd]|[? Hd]]]; discriminate.
Qed.

(** Descriptors of the example: no "ips" anywhere, nor "required". *)
Lemma example_without_ips :
  get_items_of (JArr [JObj [("id", JInt 1); ("urls", JArr [JStr "a.com"])];
                      JObj [("id", JInt 2)]]) "ips" true = Ok []
  /\ get_items_of (JInt 7) "ips" false = Raise TypeError.
Proof.
  split.
  - apply (proj1 get_items_without_the_field). repeat constructor.
  - apply (proj1 (proj2 (proj2 get_items_without_the_field))). reflexivity.
Defined.

Module ItemMoreRuns.
Import Example.

Lemma example_required_is_part_of_all :
  exists some all : list string,
    get_items_of descriptors "urls" true = Ok (map JStr some)
    /\ get_items_of descriptors "urls" false = Ok (map JStr all)
    /\ (forall s, In s some -> In s all)
    /\ (length some <= length all)%nat.
Proof.
  unfold descriptors.
  apply (get_items_required_is_part_of_all
           [JObj [("id", JInt 1); ("required", JBool true);
                  ("urls", JArr [JStr "b.com"])];
            JObj [("id", JInt 2); ("required", JBool false);
                  ("urls", JArr [JStr "a.com"])]] "urls").
  repeat constructor.
Defined.

Lemma example_descriptors_swapped :
  get_items_of
    (JArr [JObj [("id", JInt 2); ("required", JBool false);
                 ("urls", JArr [JStr "a.com"])];
           JObj [("id", JInt 1); ("required", JBool true);
                 ("urls", JArr [JStr "b.com"])]]) "urls" false
  = get_items_of descriptors "urls" false.
Proof.
  unfold descriptors.
  apply (get_items_ignores_descriptor_order
           [JObj [("id", JInt 1); ("required", JBool true);
                  ("urls", JArr [JStr "b.com"])];
            JObj [("id", JInt 2); ("required", JBool false);
                  ("urls", JArr [JStr "a.com"])]]).
  - repeat constructor.
  - apply perm_swap.
Defined.

End ItemMoreRuns.

(** ** What [sort_unique] accepts *)

Lemma py_lt_raises x y e : Py.lt x y = Raise e -> e = TypeError.
Proof.
  unfold Py.lt. destruct x, y; simpl; try discriminate;
    repeat match goal with |- context [if ?b then _ else _] => destruct b end;
    congruence.
Qed.

Lemma py_lt_same_kind x y b :
  Py.lt x y = Ok b ->
  (is_str x = true /\ is_str y = true) \/ (is_number x = true /\ is_number y = true).
Proof.
  unfold Py.lt, is_number.
  destruct x, y; simpl; try discriminate; intros _; auto.
Qed.

Lemma py_insert_In x l : forall r,
  Py.insert x l = Ok r -> forall v, In v r <-> v = x \/ In v l.
Proof.
  induction l as [|y l IH]; simpl; intros r Hr v.
  - injection Hr as <-. simpl. intuition congruence.
  - destruct (Py.lt y x) as [[|]|e]; simpl in Hr; [| |discriminate].
    + destruct (Py.insert x l) as [r'|e] eqn:Hins; simpl in Hr; [|discriminate].
      injection Hr as <-. simpl. rewrite (IH r' eq_refl v). intuition congruence.
    + injection Hr as <-. simpl. intuition congruence.
Qed.

Lemma py_sort_In l : forall s,
  Py.sort l = Ok s -> forall v, In v s <-> In v l.
Proof.
  induction l as [|x l IH]; simpl; intros s Hs v.
  - injection Hs as <-. tauto.
  - destruct (Py.sort l) as [s'|e]; simpl in Hs; [|discriminate].
    rewrite (py_insert_In x s' s Hs v), (IH s' eq_refl v). intuition congruence.
Qed.

Lemma py_insert_raises x l e : Py.insert x l = Raise e -> e = TypeError.
Proof.
  induction l as [|y l IH]; simpl; [discriminate|].
  destruct (Py.lt y x) as [[|]|e'] eqn:Hlt; simpl.
  - destruct (Py.insert x l); simpl; [discriminate|].
    intros He. injection He as <-. apply IH. reflexivity.
  - discriminate.
  - intros He. injection He as <-. exact (py_lt_raises _ _ _ Hlt).
Qed.

Lemma py_sort_raises l e : Py.sort l = Raise e -> e = TypeError.
Proof.
  induction l as [|x l IH]; simpl; [discriminate|].
  destruct (Py.sort l) as [s|e']; simpl.
  - apply py_insert_raises.
  - intros He. injection He as <-. apply IH. reflexivity.
Qed.

Lemma py_fromkeys_raises l : forall seen e,
  Py.fromkeys_from seen l = Raise e -> e = TypeError.
Proof.
  induction l as [|x l IH]; simpl; intros seen e; [discriminate|].
  destruct (Py.hashable x); [apply IH | congruence].
Qed.

Lemma py_fromkeys_Ok l : forall seen out,
  Py.fromkeys_from seen l = Ok out ->
  Forall (fun v => Py.hashable v = true) l
  /\ forall v, In v out -> In v seen \/ In v l.
Proof.
  induction l as [|x l IH]; simpl; intros seen out Hout.
  - injection Hout as <-. split; [constructor | auto].
  - destruct (Py.hashable x) eqn:Hx; [|discriminate].
    destruct (IH _ _ Hout) as [Hall Hin].
    split; [constructor; assumption|].
    intros v Hv. destruct (Hin v Hv) as [Hseen|Hl]; [|auto].
    destruct (existsb (Py.eq x) seen); [auto|].
    apply in_app_or in Hseen as [Hseen|[<-|[]]]; auto.
Qed.

Lemma is_str_not_number v : is_str v = true -> is_number v = false.
Proof. destruct v; simpl; try discriminate; reflexivity. Qed.

Lemma py_sort_one_kind l : forall s,
  Py.sort l = Ok s -> (2 <= length l)%nat ->
  Forall (fun v => is_str v = true) l \/ Forall (fun v => is_number v = true) l.
Proof.
  induction l as [|x l IH]; simpl; intros s Hs Hlen; [lia|].
  destruct (Py.sort l) as [s'|e] eqn:Hsort; simpl in Hs; [|discriminate].
  destruct s' as [|y s'].
  - destruct l as [|z l]; [simpl in Hlen; lia|].
    exfalso. apply (proj2 (py_sort_In _ _ Hsort z)). left. reflexivity.
  - assert (Hy : In y l) by (apply (py_sort_In _ _ Hsort y); left; reflexivity).
    simpl in Hs. destruct (Py.lt y x) as [b|e] eqn:Hlt; simpl in Hs; [|discriminate].
    apply py_lt_same_kind in Hlt.
    destruct l as [|z [|z' l]].
    + contradiction.
    + destruct Hy as [->|[]].
      destruct Hlt as [[Hy Hx]|[Hy Hx]]; [left | right]; repeat constructor; assumption.
    + destruct (IH _ eq_refl) as [Hstr|Hnum]; [simpl; lia | |].
      * left. constructor; [|exact Hstr].
        rewrite List.Forall_forall in Hstr. specialize (Hstr y Hy).
        destruct Hlt as [[_ Hx]|[Hynum _]]; [exact Hx|].
        rewrite (is_str_not_number y Hstr) in Hynum. discriminate.
      * right. constructor; [|exact Hnum].
        rewrite List.Forall_forall in Hnum. specialize (Hnum y Hy).
        destruct Hlt as [[Hystr _]|[_ Hx]]; [|exact Hx].
        rewrite (is_str_not_number y Hystr) in Hnum. discriminate.
Qed.

(** X13: sorting and deduplicating raises nothing but [TypeError].  When it
    returns, every collected value is hashable (no list, no object), two or
    more collected values are all strings or all numbers, and the output
    holds collected values only. *)
Theorem sort_unique_accepts :
  (forall items e, sort_unique items = Raise e -> e = TypeError)
  /\ (forall items out,
        sort_unique items = Ok out ->
        Forall (fun v => Py.hashable v = true) items
        /\ ((2 <= length items)%nat ->
            Forall (fun v => is_str v = true) items
            \/ Forall (fun v => is_number v = true) items)
        /\ (forall v, In v out -> In v items)).
Proof.
  split.
  - intros items e. unfold sort_unique.
    destruct (Py.sort items) as [s|e'] eqn:Hsort; simpl.
    + apply py_fromkeys_raises.
    + intros He. injection He as <-. exact (py_sort_raises _ _ Hsort).
  - intros items out. unfold sort_unique.
    destruct (Py.sort items) as [s|e] eqn:Hsort; simpl; [|discriminate].
    intros Hout. destruct (py_fromkeys_Ok _ _ _ Hout) as [Hhash Hin].
    split; [|split].
    + rewrite List.Forall_forall in Hhash |- *. intros v Hv.
      apply Hhash, (py_sort_In _ _ Hsort v), Hv.
    + intros Hlen. exact (py_sort_one_kind _ _ Hsort Hlen).
    + intros v Hv. destruct (Hin v Hv) as [[]|Hs].
      apply (py_sort_In _ _ Hsort v), Hs.
Qed.

(** Numbers sort by value, with [True] as 1; a string among them raises. *)
Lemma sort_unique_runs :
  (forall v, In v [JInt 0; JBool true; JInt 3] ->
             In v [JInt 3; JBool true; JInt 1; JInt 0; JBool false])
  /\ sort_unique [JInt 3; JStr "a.com"] = Raise TypeError.
Proof.
  split.
  - apply (proj2 (proj2 (proj2 sort_unique_accepts
                           [JInt 3; JBool true; JInt 1; JInt 0; JBool false]
                           [JInt 0; JBool true; JInt 3] eq_refl))).
  - destruct (sort_unique [JInt 3; JStr "a.com"]) as [out|e] eqn:Hrun.
    + discriminate Hrun.
    + rewrite (proj1 sort_unique_accepts _ _ Hrun). reflexivity.
Defined.

(** ** More on the output file *)

Lemma same_but_file_refl filename w : same_but_file filename w w.
Proof. repeat split. Qed.

Lemma same_but_file_trans filename w1 w2 w3 :
  same_but_file filename w1 w2 -> same_but_file filename w2 w3 ->
  same_but_file filename w1 w3.
Proof.
  intros (Hf & Hd & Ho & Hc & Hu & Hn) (Hf' & Hd' & Ho' & Hc' & Hu' & Hn').
  repeat split; try congruence.
  intros p Hp. rewrite (Hf' p Hp). apply Hf, Hp.
Qed.

Lemma write_same_but_file filename text w r w' :
  Os.write filename text w = (r, w') ->
  same_but_file filename w w' /\ stderr w' = stderr w.
Proof.
  unfold Os.write. destruct (files w !! filename).
  - destruct (String.eqb text ""); intros Hrun; injection Hrun as <- <-.
    + split; [apply same_but_file_refl | reflexivity].
    + split; [|reflexivity]. repeat split. intros p Hp. simpl.
      apply lookup_insert_ne. congruence.
  - intros Hrun. injection Hrun as <- <-.
    split; [apply same_but_file_refl | reflexivity].
Qed.

Lemma write_lines_same_but_file filename leng data : forall i w r w',
  write_lines filename leng i data w = (r, w') ->
  same_but_file filename w w' /\ stderr w' = stderr w.
Proof.
  induction data as [|line data IH]; intros i w r w' Hrun.
  - injection Hrun as <- <-. split; [apply same_but_file_refl | reflexivity].
  - cbn [write_lines] in Hrun. unfold wbind at 1 in Hrun.
    destruct (match line with
              | JStr s => Os.write filename s
              | _ => wraise TypeError
              end w) as [r1 w1] eqn:Hfirst.
    assert (H1 : same_but_file filename w w1 /\ stderr w1 = stderr w).
    { destruct line;
        try (injection Hfirst as <- <-;
             split; [apply same_but_file_refl | reflexivity]).
      exact (write_same_but_file _ _ _ _ _ Hfirst). }
    destruct H1 as [Hsame1 Herr1].
    destruct r1 as [[]|e]; [|injection Hrun as <- <-; split; assumption].
    unfold wbind at 1 in Hrun.
    destruct ((if i <? leng - 1 then Os.write filename newline else wret tt) w1)
      as [r2 w2] eqn:Hsecond.
    assert (H2 : same_but_file filename w1 w2 /\ stderr w2 = stderr w1).
    { destruct (i <? leng - 1).
      - exact (write_same_but_file _ _ _ _ _ Hsecond).
      - injection Hsecond as <- <-.
        split; [apply same_but_file_refl | reflexivity]. }
    destruct H2 as [Hsame2 Herr2].
    assert (Hsame12 : same_but_file filename w w2)
      by (eapply same_but_file_trans; eassumption).
    destruct r2 as [[]|e].
    + destruct (IH _ _ _ _ Hrun) as [Hsame3 Herr3]. split.
      * eapply same_but_file_trans; eassumption.
      * congruence.
    + injection Hrun as <- <-. split; [assumption | congruence].
Qed.

Lemma open_same_but_file filename (append : bool) w :
  exists w0,
    (if append then Os.open_a filename else Os.open_w filename) w = (Ok tt, w0)
    /\ same_but_file filename w w0 /\ stderr w0 = stderr w.
Proof.
  destruct append.
  - unfold Os.open_a. destruct (files w !! filename).
    + exists w. split; [reflexivity | split; [apply same_but_file_refl | reflexivity]].
    + eexists. split; [reflexivity|]. split; [|reflexivity].
      repeat split. intros p Hp. simpl. apply lookup_insert_ne. congruence.
  - unfold Os.open_w. eexists. split; [reflexivity|]. split; [|reflexivity].
    repeat split. intros p Hp. simpl. apply lookup_insert_ne. congruence.
Qed.

Lemma write_to_file_same_but_file filename data append w r w' :
  write_to_file filename data append w = (r, w') ->
  same_but_file filename w w'
  /\ stderr w' = match r with
                 | Ok _ => (stderr w ++ [("Wrote to " ++ filename)%string])%list
                 | Raise _ => stderr w
                 end.
Proof.
  unfold write_to_file. unfold wbind at 1.
  destruct (open_same_but_file filename append w) as (w0 & -> & Hsame0 & Herr0).
  unfold wbind at 1.
  destruct (write_lines filename (Z.of_nat (length data)) 0 data w0) as [r1 w1]
    eqn:Hlines.
  destruct (write_lines_same_but_file _ _ _ _ _ _ _ Hlines) as [Hsame1 Herr1].
  assert (Hsame : same_but_file filename w w1)
    by (eapply same_but_file_trans; eassumption).
  destruct r1 as [[]|e]; unfold eprint; intros Hrun; injection Hrun as <- <-.
  - split; [|simpl; congruence].
    destruct Hsame as (Hf & Hd & Ho & Hc & Hu & Hn). repeat split; assumption.
  - split; [assumption | congruence].
Qed.

(** X14: [write_to_file] changes the named file and nothing else: every other
    file, the folders, the standard output and the clock stay, whatever the
    data and the mode; the line "Wrote to <filename>" is printed when the
    writing went through and only then. *)
Theorem write_to_file_changes_one_file filename data append w :
  (forall p, p <> filename ->
     files (snd (write_to_file filename data append w)) !! p = files w !! p)
  /\ dirs (snd (write_to_file filename data append w)) = dirs w
  /\ stdout (snd (write_to_file filename data append w)) = stdout w
  /\ clock (snd (write_to_file filename data append w)) = clock w
  /\ stderr (snd (write_to_file filename data append w))
     = match fst (write_to_file filename data append w) with
       | Ok _ => (stderr w ++ [("Wrote to " ++ filename)%string])%list
       | Raise _ => stderr w
       end.
Proof.
  destruct (write_to_file filename data append w) as [r w'] eqn:Hrun.
  destruct (write_to_file_same_but_file _ _ _ _ _ _ Hrun)
    as [(Hf & Hd & Ho & Hc & _ & _) Herr].
  cbn [fst snd]. repeat split; assumption.
Qed.

Lemma write_lines_stops filename leng v rest (front : list string) : forall i w f,
  files w !! filename = Some f ->
  leng = i + Z.of_nat (length front + S (length rest)) ->
  is_str v = false ->
  write_lines filename leng i (map JStr front ++ v :: rest) w
  = (Raise TypeError,
     write_world filename
       (fold_right (fun line text => line ++ newline ++ text) "" front) w).
Proof.
  induction front as [|line front IH]; intros i w f Hf Hleng Hv.
  - cbn [map app fold_right write_lines]. unfold wbind at 1.
    assert (Hnone : write_world filename "" w = w).
    { unfold write_world, Os.write. rewrite Hf. reflexivity. }
    rewrite Hnone. destruct v; try reflexivity. discriminate.
  - cbn [map app fold_right write_lines]. unfold wbind at 1.
    destruct (write_opened filename line w f Hf) as (-> & Hf1 & _).
    unfold wbind at 1.
    assert (Hmore : (i <? leng - 1) = true).
    { apply Z.ltb_lt. cbn [length] in Hleng. lia. }
    rewrite Hmore.
    destruct (write_opened filename newline _ _ Hf1) as (-> & Hf2 & _).
    rewrite (IH (i + 1) _ _ Hf2); [| cbn [length] in Hleng; lia | exact Hv].
    rewrite (write_write filename newline _ _ _ Hf1).
    rewrite (write_write filename line _ _ _ Hf).
    reflexivity.
Qed.

Lemma write_to_file_stops_run filename (front : list string) v rest w :
  is_str v = false ->
  write_to_file filename (map JStr front ++ v :: rest) false w
  = (Raise TypeError,
     write_world filename
       (fold_right (fun line text => line ++ newline ++ text) "" front)
       (set_files (<[filename := File "" (clock w)]> (files w)) w)).
Proof.
  intros Hv. unfold write_to_file. unfold wbind at 1. unfold Os.open_w at 1.
  unfold wbind at 1.
  rewrite (write_lines_stops filename _ v rest front 0 _ (File "" (clock w)));
    [reflexivity | simpl; apply lookup_insert_eq
     | rewrite length_app, length_map; cbn [length]; lia | exact Hv].
Qed.

(** X15: an entry that is not a string stops the writing with [TypeError]: the
    file then holds the entries before it, each followed by a newline, and
    the line "Wrote to ..." is not printed. *)
Theorem write_to_file_stops_at_non_string filename (front : list string) v rest w :
  is_str v = false ->
  fst (write_to_file filename (map JStr front ++ v :: rest) false w) = Raise TypeError
  /\ files (snd (write_to_file filename (map JStr front ++ v :: rest) false w))
       !! filename
     = Some (File (fold_right (fun line text => line ++ newline ++ text) "" front)
               (clock w))
  /\ stderr (snd (write_to_file filename (map JStr front ++ v :: rest) false w))
     = stderr w.
Proof.
  intros Hv. rewrite (write_to_file_stops_run filename front v rest w Hv).
  cbn [fst snd]. split; [reflexivity|].
  set (w0 := set_files (<[filename := File "" (clock w)]> (files w)) w).
  assert (Hf : files w0 !! filename = Some (File "" (clock w))).
  { unfold w0. simpl. apply lookup_insert_eq. }
  destruct (write_opened filename
              (fold_right (fun line text => line ++ newline ++ text) "" front)
              w0 _ Hf) as (Hrun & Hfile & _).
  split.
  - rewrite Hfile. simpl.
    destruct (String.eqb (fold_right (fun line text => line ++ newline ++ text) ""
                            front) ""); reflexivity.
  - destruct (write_same_but_file _ _ _ _ _ Hrun) as [_ Herr].
    rewrite Herr. reflexivity.
Qed.

(** X24: in append mode too an entry that is not a string stops the writing
    with [TypeError]: the file then holds what it held (nothing, if it was
    missing: it has been created) and behind it the entries before the
    entry, each followed by a newline; the line "Wrote to ..." is not
    printed. *)
Theorem write_to_file_append_stops_at_non_string
    filename (front : list string) v rest w :
  is_str v = false ->
  fst (write_to_file filename (map JStr front ++ v :: rest) true w) = Raise TypeError
  /\ content <$> files (snd (write_to_file filename (map JStr front ++ v :: rest)
                               true w)) !! filename
     = Some (match files w !! filename with
             | Some f => content f
             | None => ""
             end
             ++ fold_right (fun line text => line ++ newline ++ text) "" front)
  /\ stderr (snd (write_to_file filename (map JStr front ++ v :: rest) true w))
     = stderr w.
Proof.
  intros Hv.
  assert (Hopen : exists w0 f0,
            Os.open_a filename w = (Ok tt, w0)
            /\ files w0 !! filename = Some f0
            /\ content f0 = match files w !! filename with
                            | Some f => content f
                            | None => ""
                            end
            /\ stderr w0 = stderr w).
  { unfold Os.open_a. destruct (files w !! filename) as [f|] eqn:Hf.
    - exists w, f. repeat split. exact Hf.
    - exists (set_files (<[filename := File "" (clock w)]> (files w)) w),
        (File "" (clock w)).
      repeat split. simpl. apply lookup_insert_eq. }
  destruct Hopen as (w0 & f0 & Hrun0 & Hf0 & Hold & Herr0).
  assert (Hstops : write_to_file filename (map JStr front ++ v :: rest) true w
                   = (Raise TypeError,
                      write_world filename
                        (fold_right (fun line text => line ++ newline ++ text) ""
                           front) w0)).
  { unfold write_to_file. unfold wbind at 1. rewrite Hrun0. unfold wbind at 1.
    rewrite (write_lines_stops filename _ v rest front 0 w0 f0 Hf0);
      [reflexivity | rewrite length_app, length_map; cbn [length]; lia | exact Hv]. }
  rewrite Hstops. cbn [fst snd]. split; [reflexivity|].
  destruct (write_opened filename
              (fold_right (fun line text => line ++ newline ++ text) "" front)
              w0 f0 Hf0) as (Hrun & Hfile & _).
  split.
  - rewrite Hfile. cbn [fmap option_fmap option_map content]. rewrite Hold.
    reflexivity.
  - destruct (write_same_but_file _ _ _ _ _ Hrun) as [_ Herr].
    rewrite Herr. exact Herr0.
Qed.

Lemma concat_cons_more (x y : string) (l : list string) :
  String.concat newline (x :: y :: l) = x ++ newline ++ String.concat newline (y :: l).
Proof. reflexivity. Qed.

Lemma concat_fuse (last first : string) (rest : list string) : forall front,
  String.concat newline (front ++ [last]) ++ String.concat newline (first :: rest)
  = String.concat newline (front ++ (last ++ first) :: rest).
Proof.
  induction front as [|x front IH].
  - cbn [app]. destruct rest as [|r rest]; [reflexivity|].
    rewrite !concat_cons_more. change (String.concat newline [last]) with last.
    rewrite append_assoc. reflexivity.
  - cbn [app]. destruct front as [|y front].
    + cbn [app] in *. rewrite !concat_cons_more, !append_assoc, IH. reflexivity.
    + cbn [app] in *. rewrite !concat_cons_more, !append_assoc, IH. reflexivity.
Qed.

(** X16: appending puts the new entries, joined by newlines, right behind the old
    content.  So after entries were written, appending more entries gives
    the file that writing all of them at once gives when the last old entry
    and the first new one are glued into one entry. *)
Theorem write_to_file_append_glues :
  (forall filename lines w f,
     files w !! filename = Some f ->
     fst (write_to_file filename (map JStr lines) true w) = Ok tt
     /\ content <$> files (snd (write_to_file filename (map JStr lines) true w))
                      !! filename
        = Some (content f ++ String.concat newline lines))
  /\ (forall filename front last first rest w,
        files (snd (write_to_file filename (map JStr (first :: rest)) true
                      (snd (write_to_file filename (map JStr (front ++ [last]))
                              false w)))) !! filename
        = files (snd (write_to_file filename
                        (map JStr (front ++ (last ++ first) :: rest)) false w))
            !! filename).
Proof.
  split.
  - intros filename lines w f Hf.
    destruct (write_to_file_append filename lines w f Hf) as (w' & -> & Hfile).
    split; [reflexivity|]. cbn [snd].
    change (files (logged ("Wrote to " ++ filename) w')) with (files w').
    rewrite Hfile. reflexivity.
  - intros filename front last first rest w.
    destruct (write_to_file_overwrite filename (front ++ [last]) w)
      as (w1 & Hrun1 & Hf1).
    destruct (write_to_file_same_but_file _ _ _ _ _ _ Hrun1)
      as [(_ & _ & _ & Hclock & _ & _) _].
    rewrite Hrun1.
    destruct (write_to_file_overwrite filename (front ++ (last ++ first) :: rest) w)
      as (w3 & -> & Hf3).
    cbn [snd].
    assert (Hf1' : files (logged ("Wrote to " ++ filename) w1) !! filename
                   = Some (File (String.concat newline (front ++ [last])) (clock w)))
      by exact Hf1.
    destruct (write_to_file_append filename (first :: rest) _ _ Hf1')
      as (w2 & -> & Hf2).
    cbn [snd].
    change (files (logged ("Wrote to " ++ filename) w2)) with (files w2).
    change (files (logged ("Wrote to " ++ filename) w3)) with (files w3).
    rewrite Hf2, Hf3. cbn [content mtime].
    rewrite concat_fuse, Hclock.
    destruct (String.eqb (String.concat newline (first :: rest)) ""); reflexivity.
Qed.

(** X17: the edges of [write_to_file]: no entry at all gives an empty file when
    overwriting and leaves an existing file as it is when appending; appending
    to a file that does not exist is overwriting. *)
Theorem write_to_file_edges :
  (forall filename w,
     write_to_file filename [] false w
     = (Ok tt,
        logged ("Wrote to " ++ filename)
          (set_files (<[filename := File "" (clock w)]> (files w)) w)))
  /\ (forall filename w f,
        files w !! filename = Some f ->
        write_to_file filename [] true w = (Ok tt, logged ("Wrote to " ++ filename) w))
  /\ (forall filename data w,
        files w !! filename = None ->
        write_to_file filename data true w = write_to_file filename data false w).
Proof.
  split; [|split].
  - intros filename w. reflexivity.
  - intros filename w f Hf. unfold write_to_file, wbind, Os.open_a.
    rewrite Hf. reflexivity.
  - intros filename data w Hnone. unfold write_to_file. unfold wbind at 1 3.
    unfold Os.open_a, Os.open_w. rewrite Hnone. reflexivity.
Qed.

Module OutputRuns.
Import Example.

Lemma out_txt_is_the_only_file_written :
  files (snd (write_to_file "out.txt" [JStr "a.com"; JInt 7] true warm))
    !! regions_cache
  = files warm !! regions_cache.
Proof.
  apply (proj1 (write_to_file_changes_one_file "out.txt" [JStr "a.com"; JInt 7]
                  true warm)).
  discriminate.
Defined.

Lemma number_stops_the_writing :
  fst (write_to_file "out.txt" [JStr "a.com"; JStr "b.com"; JInt 7; JStr "c.com"]
         false warm) = Raise TypeError
  /\ content <$> files (snd (write_to_file "out.txt"
                               [JStr "a.com"; JStr "b.com"; JInt 7; JStr "c.com"]
                               false warm)) !! "out.txt"
     = Some ("a.com" ++ newline ++ "b.com" ++ newline).
Proof.
  destruct (write_to_file_stops_at_non_string "out.txt" ["a.com"; "b.com"] (JInt 7)
              [JStr "c.com"] warm eq_refl) as (Hraise & Hfile & _).
  split; [exact Hraise|].
  change [JStr "a.com"; JStr "b.com"; JInt 7; JStr "c.com"]
    with (map JStr ["a.com"; "b.com"] ++ JInt 7 :: [JStr "c.com"])%list.
  rewrite Hfile. reflexivity.
Defined.

(** Appended to the region cache, the number leaves the entry before it
    behind the region list. *)
Lemma number_stops_the_appending :
  fst (write_to_file regions_cache [JStr "a.com"; JInt 7; JStr "c.com"] true warm)
  = Raise TypeError
  /\ content <$> files (snd (write_to_file regions_cache
                               [JStr "a.com"; JInt 7; JStr "c.com"] true warm))
                   !! regions_cache
     = Some (Json.dumps regions_payload ++ "a.com" ++ newline).
Proof.
  destruct (write_to_file_append_stops_at_non_string regions_cache ["a.com"] (JInt 7)
              [JStr "c.com"] warm eq_refl) as (Hraise & Hfile & _).
  split; [exact Hraise|].
  change [JStr "a.com"; JInt 7; JStr "c.com"]
    with (map JStr ["a.com"] ++ JInt 7 :: [JStr "c.com"])%list.
  rewrite Hfile. vm_compute. reflexivity.
Defined.

Lemma appending_to_the_region_cache :
  content <$> files (snd (write_to_file regions_cache (map JStr ["x"; "y"]) true warm))
                !! regions_cache
  = Some (Json.dumps regions_payload ++ String.concat newline ["x"; "y"]).
Proof.
  destruct (proj1 write_to_file_append_glues regions_cache ["x"; "y"] warm
              (File (Json.dumps regions_payload) 1700000000)) as [_ Hfile].
  - vm_compute. reflexivity.
  - exact Hfile.
Defined.

Lemma appending_nothing :
  write_to_file regions_cache [] true warm
  = (Ok tt, logged ("Wrote to " ++ regions_cache) warm)
  /\ write_to_file "out.txt" [JStr "a.com"] true warm
     = write_to_file "out.txt" [JStr "a.com"] false warm.
Proof.
  destruct write_to_file_edges as (_ & Hnothing & Hmissing). split.
  - apply (Hnothing regions_cache warm (File (Json.dumps regions_payload) 1700000000)).
    vm_compute. reflexivity.
  - apply (Hmissing "out.txt" [JStr "a.com"] warm). vm_compute. reflexivity.
Defined.

End OutputRuns.

(** ** The main function *)

Lemma print_all_run data : forall w,
  print_all data w = (Ok tt, set_stdout (stdout w ++ data) w).
Proof.
  induction data as [|line data IH]; intros w.
  - cbn [print_all]. unfold wret. rewrite app_nil_r. destruct w. reflexivity.
  - cbn [print_all]. unfold wbind, print. rewrite IH.
    unfold set_stdout. simpl. rewrite <- app_assoc. reflexivity.
Qed.

Lemma parse_args_Ok names cl args :
  parse_args names cl = Ok args ->
  args = lowered cl
  /\ In (lower (arg_region cl)) names
  /\ In (lower (arg_item cl)) ["urls"; "ips"].
Proof.
  unfold parse_args, lowered.
  destruct (existsb (String.eqb (lower (arg_region cl))) names) eqn:Hregion;
    [|discriminate].
  destruct (existsb (String.eqb (lower (arg_item cl))) ["urls"; "ips"]) eqn:Hitem;
    [|discriminate].
  intros Hargs. injection Hargs as <-. split; [reflexivity|].
  split; [apply StrListFacts.seen_In, Hregion | apply StrListFacts.seen_In, Hitem].
Qed.

Lemma lower_char_twice c : lower_char (lower_char c) = lower_char c.
Proof.
  destruct c as [b0 b1 b2 b3 b4 b5 b6 b7].
  destruct b0, b1, b2, b3, b4, b5, b6, b7; reflexivity.
Qed.

Lemma lower_twice s : lower (lower s) = lower s.
Proof.
  induction s as [|c s IH]; [reflexivity|].
  cbn [lower]. rewrite lower_char_twice, IH. reflexivity.
Qed.

Section MainFacts.

Context `{Platform}.

Lemma main_after_regions cl w regions_data w1 n :
  get_regions_data w = (Ok regions_data, w1, n) ->
  main cl w
  = (let '(r, w2, m) :=
       (regions <- lift (wpure (region_names regions_data)) ;;
        main_with_regions cl regions)%m w1 in
     (r, w2, (n + m)%nat)).
Proof.
  intros Hregions. unfold main, get_regions_list. unfold mbind at 1 2.
  rewrite Hregions. unfold mbind, lift, wpure.
  destruct (region_names regions_data) as [regions|e]; [|rewrite !Nat.add_0_r; reflexivity].
  destruct (main_with_regions cl regions w1) as [[r w2] m].
  rewrite Nat.add_0_r. reflexivity.
Qed.

(** X18: with both caches fresh and valid and without --ignorecache, [main]
    calls no producer and asks the network nothing: it prints the two "Using
    cache" lines and, without --outfile, the extracted items on the standard
    output, one call of [print] each and in their order. *)
Theorem main_runs_from_the_caches cl w fr regions_data args fe data items :
  files w !! cache_path "regions.cache" = Some fr ->
  clock w - mtime fr < 3600 ->
  json_loads (content fr) = Some regions_data ->
  arguments regions_data cl = Ok args ->
  arg_ignorecache cl = false ->
  arg_outfile cl = None ->
  files w !! cache_path (arg_region args ++ ".cache") = Some fe ->
  clock w - mtime fe < 3600 ->
  json_loads (content fe) = Some data ->
  get_items_of data (arg_item args) (arg_required args) = Ok items ->
  main cl w
  = (Ok tt,
     set_stdout (stdout w ++ items)
       (logged ("Using cache "
                ++ Os.basename (cache_path (arg_region args ++ ".cache")))
          (logged ("Using cache " ++ Os.basename (cache_path "regions.cache")) w)),
     0%nat).
Proof.
  intros Hfr Hager Hrd Hargs Hflag Hout Hfe Hagee Hdata Hitems.
  rewrite (main_after_regions cl w regions_data
             (logged ("Using cache " ++ Os.basename (cache_path "regions.cache")) w)
             0%nat);
    [| unfold get_regions_data;
       apply (use_cache_hit "regions.cache" _ w fr regions_data);
       [split; assumption | assumption]].
  unfold arguments in Hargs.
  destruct (region_names regions_data) as [regions|e]; [|discriminate].
  simpl in Hargs.
  destruct (lower_all regions) as [names|e] eqn:Hnames; [|discriminate].
  simpl in Hargs.
  destruct (parse_args_Ok _ _ _ Hargs) as (Hlowered & _ & _).
  unfold mbind at 1, lift at 1, wpure at 1.
  unfold main_with_regions. unfold mbind at 1, lift at 1, wpure at 1.
  rewrite Hnames. unfold mbind at 1, lift at 1, wpure at 1. rewrite Hargs.
  assert (Hflag' : arg_ignorecache args = false) by (subst args; exact Hflag).
  assert (Hout' : arg_outfile args = None) by (subst args; exact Hout).
  unfold mbind at 1, get_items, mbind at 1. rewrite Hflag'.
  unfold get_endpoint_data.
  rewrite (use_cache_hit (arg_region args ++ ".cache") _ _ fe data);
    [| split; [exact Hfe | exact Hagee] | exact Hdata].
  unfold lift at 1, wpure at 1. rewrite Hitems, Hout'.
  unfold lift. rewrite print_all_run. reflexivity.
Qed.

(** X20: the two positional arguments are read without regard to case: the
    command line in lower case runs as the command line as typed, and the
    region that reaches the endpoint accessor, its URL and its cache file is
    the lower-case one, which is among the lower-cased region names. *)
Theorem main_ignores_case :
  (forall cl w, main (lowered cl) w = main cl w)
  /\ (forall names cl args,
        parse_args names cl = Ok args ->
        arg_region args = lower (arg_region cl)
        /\ arg_item args = lower (arg_item cl)
        /\ In (arg_region args) names
        /\ (arg_item args = "urls" \/ arg_item args = "ips")).
Proof.
  split.
  - intros cl w.
    assert (Hparse : forall names, parse_args names (lowered cl) = parse_args names cl).
    { intros names. unfold parse_args, lowered. cbn [arg_region arg_item arg_required
        arg_ignorecache arg_outfile arg_append]. rewrite !lower_twice. reflexivity. }
    assert (Hsame : forall regions w1,
              main_with_regions (lowered cl) regions w1
              = main_with_regions cl regions w1).
    { intros regions w1. unfold main_with_regions, mbind, lift, wpure.
      destruct (lower_all regions) as [names|e]; [|reflexivity].
      rewrite Hparse. reflexivity. }
    unfold main. unfold mbind.
    destruct (get_regions_list w) as [[[regions|e] w1] n]; [|reflexivity].
    rewrite Hsame. reflexivity.
  - intros names cl args Hargs.
    destruct (parse_args_Ok _ _ _ Hargs) as (-> & Hregion & Hitem).
    cbn [lowered arg_region arg_item]. repeat split; [exact Hregion|].
    destruct Hitem as [<-|[<-|[]]]; auto.
Qed.

End MainFacts.

Module MainRuns.
Import Example.
#[local] Existing Instance python.

Lemma warm_run_prints_the_items :
  main (CommandLine "WorldWide" "URLs" false false None false) warm
  = (Ok tt,
     set_stdout [JStr "a.com"; JStr "b.com"]
       (logged "Using cache worldwide.cache"
          (logged "Using cache regions.cache" warm)),
     0%nat).
Proof.
  rewrite (main_runs_from_the_caches
             (CommandLine "WorldWide" "URLs" false false None false) warm
             (File (Json.dumps regions_payload) 1700000000) regions_payload
             (CommandLine "worldwide" "urls" false false None false)
             (File (Json.dumps descriptors) 1700000000) descriptors
             [JStr "a.com"; JStr "b.com"]);
    try (vm_compute; reflexivity).
Defined.

Lemma region_in_capitals :
  main (CommandLine "worldwide" "urls" false false None false) warm
  = main (CommandLine "WORLDWIDE" "Urls" false false None false) warm
  /\ arg_region (CommandLine "worldwide" "urls" false false None false)
     = lower "WORLDWIDE"
  /\ In "worldwide" ["worldwide"; "usgovdod"].
Proof.
  destruct main_ignores_case as [Hmain Hargs].
  destruct (Hargs ["worldwide"; "usgovdod"]
              (CommandLine "WORLDWIDE" "Urls" false false None false)
              (CommandLine "worldwide" "urls" false false None false) eq_refl)
    as (Hregion & _ & Hin & _).
  split; [|split; [exact Hregion | exact Hin]].
  exact (Hmain (CommandLine "WORLDWIDE" "Urls" false false None false) warm).
Defined.

End MainRuns.

Section MainOutput.

Context `{Platform}.

Lemma main_from_the_caches cl w fr regions_data args fe data items :
  files w !! cache_path "regions.cache" = Some fr ->
  clock w - mtime fr < 3600 ->
  json_loads (content fr) = Some regions_data ->
  arguments regions_data cl = Ok args ->
  arg_ignorecache cl = false ->
  files w !! cache_path (arg_region args ++ ".cache") = Some fe ->
  clock w - mtime fe < 3600 ->
  json_loads (content fe) = Some data ->
  get_items_of data (arg_item args) (arg_required args) = Ok items ->
  main cl w
  = (match arg_outfile cl with
     | Some filename =>
         if String.eqb filename "" then print_all items
         else write_to_file filename items (arg_append cl)
     | None => print_all items
     end
       (logged ("Using cache "
                ++ Os.basename (cache_path (arg_region args ++ ".cache")))
          (logged ("Using cache " ++ Os.basename (cache_path "regions.cache")) w)),
     0%nat).
Proof.
  intros Hfr Hager Hrd Hargs Hflag Hfe Hagee Hdata Hitems.
  rewrite (main_after_regions cl w regions_data
             (logged ("Using cache " ++ Os.basename (cache_path "regions.cache")) w)
             0%nat);
    [| unfold get_regions_data;
       apply (use_cache_hit "regions.cache" _ w fr regions_data);
       [split; assumption | assumption]].
  unfold arguments in Hargs.
  destruct (region_names regions_data) as [regions|e]; [|discriminate].
  simpl in Hargs.
  destruct (lower_all regions) as [names|e] eqn:Hnames; [|discriminate].
  simpl in Hargs.
  destruct (parse_args_Ok _ _ _ Hargs) as (Hlowered & _ & _).
  unfold mbind at 1, lift at 1, wpure at 1.
  unfold main_with_regions. unfold mbind at 1, lift at 1, wpure at 1.
  rewrite Hnames. unfold mbind at 1, lift at 1, wpure at 1. rewrite Hargs.
  assert (Hflag' : arg_ignorecache args = false) by (subst args; exact Hflag).
  assert (Hout' : arg_outfile args = arg_outfile cl) by (subst args; reflexivity).
  assert (Happ' : arg_append args = arg_append cl) by (subst args; reflexivity).
  unfold mbind at 1, get_items, mbind at 1. rewrite Hflag'.
  unfold get_endpoint_data.
  rewrite (use_cache_hit (arg_region args ++ ".cache") _ _ fe data);
    [| split; [exact Hfe | exact Hagee] | exact Hdata].
  unfold lift at 1, wpure at 1. rewrite Hitems, Hout', Happ'.
  destruct (arg_outfile cl) as [filename|];
    [destruct (String.eqb filename "")|]; unfold lift.
  - destruct (print_all items _) as [r w']. reflexivity.
  - destruct (write_to_file filename items _ _) as [r w']. reflexivity.
  - destruct (print_all items _) as [r w']. reflexivity.
Qed.

(** X21: with both caches fresh and valid, --outfile <name> and no --append,
    [main] puts the extracted strings in the file, joined by newlines, and
    prints nothing on the standard output; no producer is called. *)
Theorem main_writes_the_outfile cl w fr regions_data args fe data lines filename :
  files w !! cache_path "regions.cache" = Some fr ->
  clock w - mtime fr < 3600 ->
  json_loads (content fr) = Some regions_data ->
  arguments regions_data cl = Ok args ->
  arg_ignorecache cl = false ->
  files w !! cache_path (arg_region args ++ ".cache") = Some fe ->
  clock w - mtime fe < 3600 ->
  json_loads (content fe) = Some data ->
  get_items_of data (arg_item args) (arg_required args) = Ok (map JStr lines) ->
  arg_outfile cl = Some filename ->
  filename <> "" ->
  arg_append cl = false ->
  returned (main cl w) = Ok tt
  /\ producer_calls (main cl w) = 0%nat
  /\ files (final (main cl w)) !! filename
     = Some (File (String.concat newline lines) (clock w))
  /\ stdout (final (main cl w)) = stdout w.
Proof.
  intros Hfr Hager Hrd Hargs Hflag Hfe Hagee Hdata Hitems Hout Hname Happend.
  rewrite (main_from_the_caches cl w fr regions_data args fe data (map JStr lines));
    try assumption.
  rewrite Hout, Happend.
  destruct (String.eqb_spec filename "") as [Hempty|_]; [contradiction|].
  destruct (write_to_file_overwrite filename lines
              (logged ("Using cache "
                       ++ Os.basename (cache_path (arg_region args ++ ".cache")))
                 (logged ("Using cache " ++ Os.basename (cache_path "regions.cache"))
                    w))) as (w' & Hrun & Hfile).
  destruct (write_to_file_same_but_file _ _ _ _ _ _ Hrun)
    as [(_ & _ & Hstdout & _) _].
  rewrite Hrun. unfold returned, producer_calls, final. cbn [fst snd].
  repeat split; [exact Hfile | exact Hstdout].
Qed.

(** X22: an empty --outfile is no --outfile: the items go to the standard
    output. *)
Theorem main_empty_outfile_is_stdout cl w :
  main (with_outfile (Some "") cl) w = main (with_outfile None cl) w.
Proof.
  assert (Hsame : forall regions w1,
            main_with_regions (with_outfile (Some "") cl) regions w1
            = main_with_regions (with_outfile None cl) regions w1).
  { intros regions w1. unfold main_with_regions, mbind, lift, wpure.
    destruct (lower_all regions) as [names|e]; [|reflexivity].
    unfold parse_args, with_outfile.
    cbn [arg_region arg_item arg_required arg_ignorecache arg_outfile arg_append].
    destruct (_ && _); reflexivity. }
  unfold main. unfold mbind.
  destruct (get_regions_list w) as [[[regions|e] w1] n]; [|reflexivity].
  rewrite Hsame. reflexivity.
Qed.

End MainOutput.

Module MainOutputRuns.
Import Example.
#[local] Existing Instance python.

Lemma warm_run_writes_out_txt :
  returned (main (CommandLine "worldwide" "urls" false false (Some "out.txt") false)
              warm) = Ok tt
  /\ producer_calls
       (main (CommandLine "worldwide" "urls" false false (Some "out.txt") false) warm)
     = 0%nat
  /\ files (final (main (CommandLine "worldwide" "urls" false false (Some "out.txt")
                           false) warm)) !! "out.txt"
     = Some (File (String.concat newline ["a.com"; "b.com"]) (clock warm))
  /\ stdout (final (main (CommandLine "worldwide" "urls" false false (Some "out.txt")
                            false) warm)) = stdout warm.
Proof.
  apply (main_writes_the_outfile
           (CommandLine "worldwide" "urls" false false (Some "out.txt") false) warm
           (File (Json.dumps regions_payload) 1700000000) regions_payload
           (CommandLine "worldwide" "urls" false false (Some "out.txt") false)
           (File (Json.dumps descriptors) 1700000000) descriptors
           ["a.com"; "b.com"] "out.txt");
    try (vm_compute; reflexivity).
  discriminate.
Defined.

End MainOutputRuns.

